(** * ValidationBuilder: the source/target query pair of a validation config

    A shallow embedding of [data_validation/validation_builder.py] and the
    properties of the pair of query builders it fills from one config. *)

From stdpp Require Import base option list strings gmap fin_maps.
From Stdlib Require Import ZArith.

Local Open Scope string_scope.
Local Open Scope list_scope.

(** ** Python values found in a config

    A config is what a YAML or JSON loader returns: [None], booleans,
    integers, strings, lists and string-keyed dicts. *)

#[warnings="-register-all"]
Inductive pyval : Type :=
| PNone
| PBool (b : bool)
| PInt (z : Z)
| PStr (s : string)
| PList (l : list pyval)
| PDict (d : gmap string pyval).

Abbreviation pydict := (gmap string pyval).

(** Python's truth value, as used by [x or y]. *)
Definition truthy (v : pyval) : bool :=
  match v with
  | PNone => false
  | PBool b => b
  | PInt z => negb (Z.eqb z 0)
  | PStr s => negb (String.eqb s "")
  | PList l => match l with [] => false | _ => true end
  | PDict d => negb (bool_decide (d = ∅))
  end.

(** [x or y] on values: [x] when it is truthy, otherwise [y]. *)
Definition py_or (x y : pyval) : pyval := if truthy x then x else y.

(** ** Exceptions *)

(** The exceptions the builder can raise.  [ValueError] and [Exception] carry
    the message template and the value that Python formats into it. *)
Inductive pyexc : Type :=
| KeyError (key : string)
| TypeError (msg : string)
| AttributeError (msg : string)
| ValueError (template : string) (arg : pyval)
| Exception (template : string) (arg : pyval).

Inductive result (A : Type) : Type :=
| Ok (a : A)
| Raise (e : pyexc).
Arguments Ok {A} a.
Arguments Raise {A} e.

#[export] Instance result_ret : MRet result := @Ok.
#[export] Instance result_bind : MBind result := λ A B f r,
  match r with
  | Ok a => f a
  | Raise e => Raise e
  end.

(** [d[k]]: a missing key raises [KeyError]. *)
Definition dict_getitem (d : pydict) (k : string) : result pyval :=
  match d !! k with
  | Some v => Ok v
  | None => Raise (KeyError k)
  end.

(** [d.get(k, default)] and [d.get(k)], whose default is [None]. *)
Definition dict_get_default (d : pydict) (k : string) (default : pyval) : pyval :=
  match d !! k with
  | Some v => v
  | None => default
  end.

Definition dict_get (d : pydict) (k : string) : pyval :=
  dict_get_default d k PNone.

(** [v.get(k)]: only a dict has the method. *)
Definition py_get (v : pyval) (k : string) : result pyval :=
  match v with
  | PDict d => Ok (dict_get d k)
  | PStr _ => Raise (AttributeError "'str' object has no attribute 'get'")
  | PList _ => Raise (AttributeError "'list' object has no attribute 'get'")
  | PNone => Raise (AttributeError "'NoneType' object has no attribute 'get'")
  | PBool _ => Raise (AttributeError "'bool' object has no attribute 'get'")
  | PInt _ => Raise (AttributeError "'int' object has no attribute 'get'")
  end.

(** [v[k]] for a string key [k]: only a dict accepts it. *)
Definition py_getitem (v : pyval) (k : string) : result pyval :=
  match v with
  | PDict d => dict_getitem d k
  | PStr _ => Raise (TypeError "string indices must be integers")
  | PList _ => Raise (TypeError "list indices must be integers or slices, not str")
  | PNone => Raise (TypeError "'NoneType' object is not subscriptable")
  | PBool _ => Raise (TypeError "'bool' object is not subscriptable")
  | PInt _ => Raise (TypeError "'int' object is not subscriptable")
  end.

(** The items a [for] loop visits: the elements of a list, the characters of a
    string, the keys of a dict; other values are not iterable. *)
Fixpoint chars (s : string) : list pyval :=
  match s with
  | EmptyString => []
  | String a s' => PStr (String a EmptyString) :: chars s'
  end.

Definition py_iter (v : pyval) : result (list pyval) :=
  match v with
  | PList l => Ok l
  | PStr s => Ok (chars s)
  | PDict d => Ok (PStr <$> (map_to_list d).*1)
  | PNone => Raise (TypeError "'NoneType' object is not iterable")
  | PBool _ => Raise (TypeError "'bool' object is not iterable")
  | PInt _ => Raise (TypeError "'int' object is not iterable")
  end.

(** [v in names] for a list of string literals: [==] holds only between a
    string and an equal string. *)
Definition py_in_strs (v : pyval) (names : list string) : bool :=
  match v with
  | PStr s => bool_decide (s ∈ names)
  | _ => false
  end.

(** ** The collaborators of the builder *)

(** The constants module [data_validation.consts] is not part of the source
    unit; its values are the recognized keys of the configuration structure. *)
Module consts.
(** Modelled from the spec: the key of the validation type, and of the
    aggregation type of an aggregate. *)
Definition CONFIG_TYPE := "type".
(** Modelled from the spec: the key of the sequence of aggregates. *)
Definition CONFIG_AGGREGATES := "aggregates".
(** Modelled from the spec: the key of the sequence of grouped columns. *)
Definition CONFIG_GROUPED_COLUMNS := "grouped_columns".
(** Modelled from the spec: the key of the alias of a field. *)
Definition CONFIG_FIELD_ALIAS := "field_alias".
(** Modelled from the spec: the key of the source column of a field. *)
Definition CONFIG_SOURCE_COLUMN := "source_column".
(** Modelled from the spec: the key of the target column of a field. *)
Definition CONFIG_TARGET_COLUMN := "target_column".
(** Modelled from the spec: the key of the cast of a grouped column. *)
Definition CONFIG_CAST := "cast".
(** Modelled from the spec: the key of the row limit. *)
Definition CONFIG_LIMIT := "limit".
End consts.

(** The classes of [data_validation.query_builder.query_builder] are not part
    of the source unit either. *)
Module AggregateField.
(** Modelled from the spec: the descriptor an aggregation behaviour builds
    from a column name and an alias; [kind] records which behaviour of class
    [AggregateField] built it. *)
Record t : Type := make { kind : string; field_name : pyval; alias : pyval }.
End AggregateField.

Module GroupedField.
(** Modelled from the spec: the descriptor of a grouping key: a column name,
    an alias and an optional cast. *)
Record t : Type := make { field_name : pyval; alias : pyval; cast : pyval }.
End GroupedField.

Module QueryBuilder.
(** Modelled from the spec: the query specification of one side, which
    accumulates an ordered sequence of aggregate descriptors, an ordered
    sequence of grouped descriptors, and a limit. *)
Record t : Type := make {
  aggregate_fields : list AggregateField.t;
  grouped_fields : list GroupedField.t;
  limit : pyval
}.

(** Modelled from the spec: [build_count_validator()] returns a new
    specification with no field and no limit, aliased to no other. *)
Definition build_count_validator : t := make [] [] PNone.

(** Modelled from the spec: [add_aggregate_field] appends a descriptor to the
    aggregate sequence. *)
Definition add_aggregate_field (f : AggregateField.t) (qb : t) : t :=
  make (aggregate_fields qb ++ [f]) (grouped_fields qb) (limit qb).

(** Modelled from the spec: [add_grouped_field] appends a descriptor to the
    grouped sequence. *)
Definition add_grouped_field (f : GroupedField.t) (qb : t) : t :=
  make (aggregate_fields qb) (grouped_fields qb ++ [f]) (limit qb).

(** The assignment [builder.limit = l]. *)
Definition set_limit (l : pyval) (qb : t) : t :=
  make (aggregate_fields qb) (grouped_fields qb) l.
End QueryBuilder.

(** ** The declared specs of a config

    The view of a config the properties are stated on: the aggregate and
    group specs its items stand for, and the descriptors each side is due. *)

Record AggregateSpec : Type := {
  agg_alias : pyval;
  agg_source_column : pyval;
  agg_target_column : pyval;
  agg_type : string
}.

Record GroupSpec : Type := {
  grp_alias : pyval;
  grp_source_column : pyval;
  grp_target_column : pyval;
  grp_cast : pyval
}.

(** An item of [aggregates] that has its three column keys and a string under
    [type]. *)
Definition as_aggregate_spec (v : pyval) : option AggregateSpec :=
  match v with
  | PDict d =>
      a ← d !! consts.CONFIG_FIELD_ALIAS;
      sc ← d !! consts.CONFIG_SOURCE_COLUMN;
      tc ← d !! consts.CONFIG_TARGET_COLUMN;
      match d !! consts.CONFIG_TYPE with
      | Some (PStr k) => Some (Build_AggregateSpec a sc tc k)
      | _ => None
      end
  | _ => None
  end.

(** An item of [grouped_columns] that has its three column keys; a missing
    [cast] is [None]. *)
Definition as_group_spec (v : pyval) : option GroupSpec :=
  match v with
  | PDict d =>
      a ← d !! consts.CONFIG_FIELD_ALIAS;
      sc ← d !! consts.CONFIG_SOURCE_COLUMN;
      tc ← d !! consts.CONFIG_TARGET_COLUMN;
      Some (Build_GroupSpec a sc tc (dict_get d consts.CONFIG_CAST))
  | _ => None
  end.

(** The items the two binding loops of a config visit. *)
Definition aggregate_items (c : pydict) : result (list pyval) :=
  py_iter (py_or (dict_get c consts.CONFIG_AGGREGATES) (PList [])).

Definition group_items (c : pydict) : result (list pyval) :=
  py_iter (py_or (dict_get c consts.CONFIG_GROUPED_COLUMNS) (PList [])).

(** The specs a config declares, when every item is one. *)
Definition declared_aggregates (c : pydict) : option (list AggregateSpec) :=
  match aggregate_items c with
  | Ok items => mapM as_aggregate_spec items
  | Raise _ => None
  end.

Definition declared_groups (c : pydict) : option (list GroupSpec) :=
  match group_items c with
  | Ok items => mapM as_group_spec items
  | Raise _ => None
  end.

Definition source_aggregate (s : AggregateSpec) : AggregateField.t :=
  AggregateField.make (agg_type s) (agg_source_column s) (agg_alias s).

Definition target_aggregate (s : AggregateSpec) : AggregateField.t :=
  AggregateField.make (agg_type s) (agg_target_column s) (agg_alias s).

Definition source_group (g : GroupSpec) : GroupedField.t :=
  GroupedField.make (grp_source_column g) (grp_alias g) (grp_cast g).

Definition target_group (g : GroupSpec) : GroupedField.t :=
  GroupedField.make (grp_target_column g) (grp_alias g) (grp_cast g).

(** ** The builder *)

Section ValidationBuilder.
(** Backend clients and compiled queries are opaque to the builder. *)
Context {Client Query : Type}.

(** The arguments [compile] is called with. *)
Record compile_kwargs : Type := {
  data_client : Client;
  schema_name : pyval;
  table_name : pyval
}.

(** Modelled from the spec: the resolver's registry, the names [n] for which
    [hasattr(AggregateField, n)] holds; under each of them the class offers
    an aggregation behaviour. *)
Variable registry : gset string.

(** Modelled from the spec: the per-backend compiler, [QueryBuilder.compile];
    it returns a query or raises, and is handed the specification object
    itself, so it also returns the specification it leaves behind. *)
Variable compile :
  QueryBuilder.t → compile_kwargs → result Query * QueryBuilder.t.

(** The attributes of a [ValidationBuilder] object. *)
Record ValidationBuilder : Type := {
  verbose : bool;
  config : pydict;
  validation_type : pyval;
  source_client : Client;
  target_client : Client;
  source_builder : QueryBuilder.t;
  target_builder : QueryBuilder.t;
  aggregate_aliases : list pyval;
  group_aliases : list pyval
}.

Definition with_source_builder (f : QueryBuilder.t → QueryBuilder.t)
    (b : ValidationBuilder) : ValidationBuilder :=
  {| verbose := verbose b; config := config b;
     validation_type := validation_type b;
     source_client := source_client b; target_client := target_client b;
     source_builder := f (source_builder b);
     target_builder := target_builder b;
     aggregate_aliases := aggregate_aliases b;
     group_aliases := group_aliases b |}.

Definition with_target_builder (f : QueryBuilder.t → QueryBuilder.t)
    (b : ValidationBuilder) : ValidationBuilder :=
  {| verbose := verbose b; config := config b;
     validation_type := validation_type b;
     source_client := source_client b; target_client := target_client b;
     source_builder := source_builder b;
     target_builder := f (target_builder b);
     aggregate_aliases := aggregate_aliases b;
     group_aliases := group_aliases b |}.

Definition with_aggregate_aliases (f : list pyval → list pyval)
    (b : ValidationBuilder) : ValidationBuilder :=
  {| verbose := verbose b; config := config b;
     validation_type := validation_type b;
     source_client := source_client b; target_client := target_client b;
     source_builder := source_builder b;
     target_builder := target_builder b;
     aggregate_aliases := f (aggregate_aliases b);
     group_aliases := group_aliases b |}.

Definition with_group_aliases (f : list pyval → list pyval)
    (b : ValidationBuilder) : ValidationBuilder :=
  {| verbose := verbose b; config := config b;
     validation_type := validation_type b;
     source_client := source_client b; target_client := target_client b;
     source_builder := source_builder b;
     target_builder := target_builder b;
     aggregate_aliases := aggregate_aliases b;
     group_aliases := f (group_aliases b) |}.

(** What [print] writes. *)
Inductive printed : Type :=
| PrintStr (s : string)
| PrintQuery (q : Query).

(** The state a method runs in: the object and standard output. *)
Record state : Type := { self : ValidationBuilder; stdout : list printed }.

(** A method body: it returns or raises, and leaves a state either way. *)
Definition M (A : Type) : Type := state → result A * state.

#[local] Instance M_ret : MRet M := λ A a st, (Ok a, st).
#[local] Instance M_bind : MBind M := λ A B f m st,
  match m st with
  | (Ok a, st') => f a st'
  | (Raise e, st') => (Raise e, st')
  end.

Definition lift {A} (r : result A) : M A := λ st, (r, st).
Definition raise {A} (e : pyexc) : M A := λ st, (Raise e, st).
Definition get_self : M ValidationBuilder := λ st, (Ok (self st), st).
Definition modify_self (f : ValidationBuilder → ValidationBuilder) : M unit :=
  λ st, (Ok tt, {| self := f (self st); stdout := stdout st |}).
Definition print (p : printed) : M unit :=
  λ st, (Ok tt, {| self := self st; stdout := stdout st ++ [p] |}).

(** [for x in l: body(x)] *)
Fixpoint for_each {A} (l : list A) (body : A → M unit) : M unit :=
  match l with
  | [] => mret tt
  | x :: l' => body x ;; for_each l' body
  end.

(** [hasattr(AggregateField, name)]: the name must be a string. *)
Definition AggregateField_hasattr (name : pyval) : result bool :=
  match name with
  | PStr s => Ok (bool_decide (s ∈ registry))
  | _ => Raise (TypeError "hasattr(): attribute name must be string")
  end.

(** Modelled from the spec: [getattr(AggregateField, name)(field_name=...,
    alias=...)], the behaviour registered under [name] applied to a column
    name and an alias; it builds the descriptor and has no other effect. *)
Definition AggregateField_getattr_call (name field_name alias : pyval)
    : result AggregateField.t :=
  match name with
  | PStr s =>
      if bool_decide (s ∈ registry)
      then Ok (AggregateField.make s field_name alias)
      else Raise (AttributeError "type object 'AggregateField' has no attribute")
  | _ => Raise (TypeError "getattr(): attribute name must be string")
  end.

(** [get_query_builder] *)
Definition get_query_builder (validation_type : pyval) : result QueryBuilder.t :=
  if py_in_strs validation_type ["Column"; "GroupedColumn"]
  then Ok QueryBuilder.build_count_validator
  else Raise (ValueError "Validation Builder supplied unknown type: %s"
                validation_type).

Definition get_config_aggregates : M pyval :=
  b ← get_self;
  mret (py_or (dict_get (config b) consts.CONFIG_AGGREGATES) (PList [])).

Definition get_config_query_groups : M pyval :=
  b ← get_self;
  mret (py_or (dict_get (config b) consts.CONFIG_GROUPED_COLUMNS) (PList [])).

Definition get_aggregate_aliases : M (list pyval) :=
  b ← get_self; mret (aggregate_aliases b).

Definition get_group_aliases : M (list pyval) :=
  b ← get_self; mret (group_aliases b).

Definition add_aggregate (aggregate_field : pyval) : M unit :=
  alias ← lift (py_getitem aggregate_field consts.CONFIG_FIELD_ALIAS);
  source_field_name ← lift (py_getitem aggregate_field consts.CONFIG_SOURCE_COLUMN);
  target_field_name ← lift (py_getitem aggregate_field consts.CONFIG_TARGET_COLUMN);
  aggregate_type ← lift (py_get aggregate_field consts.CONFIG_TYPE);
  known ← lift (AggregateField_hasattr aggregate_type);
  if negb known
  then raise (Exception "Unknown Aggregation Type: {}" aggregate_type)
  else
    source_agg ← lift (AggregateField_getattr_call aggregate_type source_field_name alias);
    target_agg ← lift (AggregateField_getattr_call aggregate_type target_field_name alias);
    modify_self (with_source_builder (QueryBuilder.add_aggregate_field source_agg)) ;;
    modify_self (with_target_builder (QueryBuilder.add_aggregate_field target_agg)) ;;
    modify_self (with_aggregate_aliases (λ l, l ++ [alias])).

Definition add_query_group (grouped_field : pyval) : M unit :=
  alias ← lift (py_getitem grouped_field consts.CONFIG_FIELD_ALIAS);
  source_field_name ← lift (py_getitem grouped_field consts.CONFIG_SOURCE_COLUMN);
  target_field_name ← lift (py_getitem grouped_field consts.CONFIG_TARGET_COLUMN);
  cast ← lift (py_get grouped_field consts.CONFIG_CAST);
  let source_field := GroupedField.make source_field_name alias cast in
  let target_field := GroupedField.make target_field_name alias cast in
  modify_self (with_source_builder (QueryBuilder.add_grouped_field source_field)) ;;
  modify_self (with_target_builder (QueryBuilder.add_grouped_field target_field)) ;;
  modify_self (with_group_aliases (λ l, l ++ [alias])).

Definition add_config_aggregates : M unit :=
  aggregate_fields ← get_config_aggregates;
  items ← lift (py_iter aggregate_fields);
  for_each items add_aggregate.

Definition add_config_query_groups : M unit :=
  grouped_fields ← get_config_query_groups;
  items ← lift (py_iter grouped_fields);
  for_each items add_query_group.

Definition _get_query_limit : M pyval :=
  b ← get_self; mret (dict_get (config b) consts.CONFIG_LIMIT).

Definition add_query_limit : M unit :=
  limit ← _get_query_limit;
  modify_self (with_source_builder (QueryBuilder.set_limit limit)) ;;
  modify_self (with_target_builder (QueryBuilder.set_limit limit)).

(** The three construction steps run by [__init__] after the attributes
    are set. *)
Definition build_steps : M unit :=
  add_config_aggregates ;; add_config_query_groups ;; add_query_limit.

(** [ValidationBuilder(config, source_client, target_client, verbose)]: an
    exception leaves the caller without an object. *)
Definition __init__ (config : pydict) (source_client target_client : Client)
    (verbose : bool) : result ValidationBuilder :=
  validation_type ← dict_getitem config consts.CONFIG_TYPE;
  source_builder ← get_query_builder validation_type;
  target_builder ← get_query_builder validation_type;
  let b := {| verbose := verbose; config := config;
              validation_type := validation_type;
              source_client := source_client;
              target_client := target_client;
              source_builder := source_builder;
              target_builder := target_builder;
              aggregate_aliases := [];
              group_aliases := [] |} in
  match build_steps {| self := b; stdout := [] |} with
  | (Ok _, st) => Ok (self st)
  | (Raise e, _) => Raise e
  end.

Definition call_compile_source (kw : compile_kwargs) : M Query :=
  λ st, let '(r, qb) := compile (source_builder (self st)) kw in
        (r, {| self := with_source_builder (λ _, qb) (self st);
               stdout := stdout st |}).

Definition call_compile_target (kw : compile_kwargs) : M Query :=
  λ st, let '(r, qb) := compile (target_builder (self st)) kw in
        (r, {| self := with_target_builder (λ _, qb) (self st);
               stdout := stdout st |}).

Definition get_source_query : M Query :=
  b ← get_self;
  schema ← lift (dict_getitem (config b) "schema_name");
  table ← lift (dict_getitem (config b) "table_name");
  let source_config := {| data_client := source_client b;
                          schema_name := schema;
                          table_name := table |} in
  query ← call_compile_source source_config;
  b' ← get_self;
  (if verbose b'
   then print (PrintStr "-- ** Source Query ** --") ;; print (PrintQuery query)
   else mret tt) ;;
  mret query.

Definition get_target_query : M Query :=
  b ← get_self;
  schema_default ← lift (dict_getitem (config b) "schema_name");
  let schema := dict_get_default (config b) "target_schema_name" schema_default in
  table_default ← lift (dict_getitem (config b) "table_name");
  let table := dict_get_default (config b) "target_table_name" table_default in
  let target_config := {| data_client := target_client b;
                          schema_name := schema;
                          table_name := table |} in
  query ← call_compile_target target_config;
  b' ← get_self;
  (if verbose b'
   then print (PrintStr "-- ** Target Query ** --") ;; print (PrintQuery query)
   else mret tt) ;;
  mret query.

(** The builder after one aggregate spec is bound. *)
Definition bind_aggregate (s : AggregateSpec) (b : ValidationBuilder)
    : ValidationBuilder :=
  with_aggregate_aliases (λ l, l ++ [agg_alias s])
    (with_target_builder (QueryBuilder.add_aggregate_field (target_aggregate s))
       (with_source_builder (QueryBuilder.add_aggregate_field (source_aggregate s)) b)).

Definition bind_group (g : GroupSpec) (b : ValidationBuilder)
    : ValidationBuilder :=
  with_group_aliases (λ l, l ++ [grp_alias g])
    (with_target_builder (QueryBuilder.add_grouped_field (target_group g))
       (with_source_builder (QueryBuilder.add_grouped_field (source_group g)) b)).

Definition on_self (f : ValidationBuilder → ValidationBuilder) (st : state) : state :=
  {| self := f (self st); stdout := stdout st |}.

(** The builder after a run of aggregate specs, and of group specs, is
    bound. *)
Definition bind_aggregates (l : list AggregateSpec) (b : ValidationBuilder)
    : ValidationBuilder :=
  foldl (λ b s, bind_aggregate s b) b l.

Definition bind_groups (l : list GroupSpec) (b : ValidationBuilder)
    : ValidationBuilder :=
  foldl (λ b g, bind_group g b) b l.

(** The object a construction that binds [aggs] and [groups] returns. *)
Definition built (c : pydict) (vt : pyval) (sc tc : Client) (v : bool)
    (aggs : list AggregateSpec) (groups : list GroupSpec) : ValidationBuilder :=
  {| verbose := v; config := c; validation_type := vt;
     source_client := sc; target_client := tc;
     source_builder :=
       QueryBuilder.make (source_aggregate <$> aggs) (source_group <$> groups)
         (dict_get c consts.CONFIG_LIMIT);
     target_builder :=
       QueryBuilder.make (target_aggregate <$> aggs) (target_group <$> groups)
         (dict_get c consts.CONFIG_LIMIT);
     aggregate_aliases := agg_alias <$> aggs;
     group_aliases := grp_alias <$> groups |}.

(** The initial object of [__init__], before the three steps. *)
Definition fresh (c : pydict) (vt : pyval) (sc tc : Client) (v : bool) : ValidationBuilder :=
  {| verbose := v; config := c; validation_type := vt;
     source_client := sc; target_client := tc;
     source_builder := QueryBuilder.build_count_validator;
     target_builder := QueryBuilder.build_count_validator;
     aggregate_aliases := []; group_aliases := [] |}.

(** What a query method does with the outcome of [compile]: the query is
    returned, after being printed under a header when [verbose] is set; an
    exception of the compiler propagates. *)
Definition report (header : string) (out : result Query * state)
    : result Query * state :=
  match out with
  | (Ok q, st) =>
      (Ok q,
       if verbose (self st)
       then {| self := self st;
               stdout := stdout st ++ [PrintStr header; PrintQuery q] |}
       else st)
  | (Raise e, st) => (Raise e, st)
  end.

(** A caller's invocations of the two query methods, one after the other on
    the same object. *)
Inductive query_call : Type := SourceQuery | TargetQuery.

Definition invoke (q : query_call) : M Query :=
  match q with
  | SourceQuery => get_source_query
  | TargetQuery => get_target_query
  end.

Fixpoint invoke_all (calls : list query_call) (st : state) : state :=
  match calls with
  | [] => st
  | q :: calls' => invoke_all calls' (snd (invoke q st))
  end.

End ValidationBuilder.

(** The validation types [get_query_builder] accepts. *)
Definition supported_type (v : pyval) : Prop :=
  v = PStr "Column" ∨ v = PStr "GroupedColumn".

(** The two failures of the error taxonomy, as the exceptions raised. *)
Definition UnsupportedValidationType (v : pyval) : pyexc :=
  ValueError "Validation Builder supplied unknown type: %s" v.

Definition UnknownAggregationKind (v : pyval) : pyexc :=
  Exception "Unknown Aggregation Type: {}" v.

Definition is_UnknownAggregationKind (e : pyexc) : Prop :=
  ∃ v, e = UnknownAggregationKind v.

(** A registry and a config to run the builder on: the kinds the design
    names, and its worked example. *)
Definition sample_registry : gset string :=
  list_to_set ["count"; "sum"; "avg"; "min"; "max"].

Definition pydict_of (l : list (string * pyval)) : pyval := PDict (list_to_map l).

Definition example_config : pydict :=
  list_to_map
    [("type", PStr "GroupedColumn");
     ("aggregates",
      PList [pydict_of [("source_column", PStr "amount");
                        ("target_column", PStr "amt");
                        ("field_alias", PStr "sum_amount");
                        ("type", PStr "sum")]]);
     ("grouped_columns",
      PList [pydict_of [("source_column", PStr "region");
                        ("target_column", PStr "region_cd");
                        ("field_alias", PStr "region");
                        ("cast", PStr "string")]]);
     ("schema_name", PStr "s");
     ("table_name", PStr "t");
     ("limit", PInt 100)].

(** Further configs: one with a row limit of 500 and a target schema of its
    own, one with no aggregates and no groups, one whose two aggregates and
    two groups share an alias, one with an aggregation kind outside the
    registry, one with an unsupported validation type, and one whose second
    aggregate has no [type] key. *)
Definition override_config : pydict :=
  <["limit" := PInt 500]> (<["target_schema_name" := PStr "ts"]> example_config).

Definition bare_config : pydict := {["type" := PStr "Column"]}.

Definition sum_amount_item (alias : string) : pyval :=
  pydict_of [("source_column", PStr "amount"); ("target_column", PStr "amt");
             ("field_alias", PStr alias); ("type", PStr "sum")].

Definition region_item (alias : string) : pyval :=
  pydict_of [("source_column", PStr "region"); ("target_column", PStr "region_cd");
             ("field_alias", PStr alias); ("cast", PStr "string")].

Definition shared_alias_config : pydict :=
  list_to_map
    [("type", PStr "GroupedColumn");
     ("aggregates", PList [sum_amount_item "x"; sum_amount_item "x"]);
     ("grouped_columns", PList [region_item "g"; region_item "g"])].

Definition median_item : pyval :=
  pydict_of [("source_column", PStr "amount"); ("target_column", PStr "amt");
             ("field_alias", PStr "median_amount"); ("type", PStr "median")].

Definition unknown_kind_config : pydict :=
  list_to_map
    [("type", PStr "Column");
     ("aggregates",
      PList [sum_amount_item "sum_amount"; median_item; sum_amount_item "late"])].

Definition bogus_config : pydict := {["type" := PStr "Bogus"]}.

Definition untyped_item : pydict :=
  list_to_map [("source_column", PStr "amount"); ("target_column", PStr "amt");
               ("field_alias", PStr "untyped")].

Definition missing_type_config : pydict :=
  list_to_map
    [("type", PStr "Column");
     ("aggregates", PList [sum_amount_item "sum_amount"; PDict untyped_item])].

Definition sum_amount_spec (alias : string) : AggregateSpec :=
  Build_AggregateSpec (PStr alias) (PStr "amount") (PStr "amt") "sum".

Definition region_spec (alias : string) : GroupSpec :=
  Build_GroupSpec (PStr alias) (PStr "region") (PStr "region_cd") (PStr "string").

Definition median_spec : AggregateSpec :=
  Build_AggregateSpec (PStr "median_amount") (PStr "amount") (PStr "amt") "median".

(** A compiler that returns the arguments it was called with, and the
    builders of two of the configs. *)
Definition echo_compile (qb : QueryBuilder.t) (kw : @compile_kwargs string)
    : result (@compile_kwargs string) * QueryBuilder.t :=
  (Ok kw, qb).

Definition example_builder : @ValidationBuilder string :=
  built example_config (PStr "GroupedColumn") "src" "tgt" false
    [sum_amount_spec "sum_amount"] [region_spec "region"].

Definition override_builder : @ValidationBuilder string :=
  built override_config (PStr "GroupedColumn") "src" "tgt" true
    [sum_amount_spec "sum_amount"] [region_spec "region"].

(** ** Further notions the properties are stated on *)

(** The first of the three column keys, in the order the binding methods read
    them, that an item lacks. *)
Definition first_missing_key (d : pydict) : option string :=
  if d !! consts.CONFIG_FIELD_ALIAS is None then Some consts.CONFIG_FIELD_ALIAS
  else if d !! consts.CONFIG_SOURCE_COLUMN is None then Some consts.CONFIG_SOURCE_COLUMN
  else if d !! consts.CONFIG_TARGET_COLUMN is None then Some consts.CONFIG_TARGET_COLUMN
  else None.

(** The first of the two location keys, in the order the query methods read
    them, that a config lacks. *)
Definition missing_location (c : pydict) : option string :=
  if c !! "schema_name" is None then Some "schema_name"
  else if c !! "table_name" is None then Some "table_name"
  else None.

Definition is_dict (v : pyval) : bool :=
  match v with PDict _ => true | _ => false end.

(** The items a config lists under a key, read off the config itself: the
    elements of the list found there, and none when the key is absent or
    holds no list. *)
Definition declared_items (c : pydict) (k : string) : list pyval :=
  match c !! k with
  | Some (PList l) => l
  | _ => []
  end.

(** A config that has a list under a key, or has not the key. *)
Definition lists_or_omits (c : pydict) (k : string) : Prop :=
  c !! k = None ∨ ∃ l, c !! k = Some (PList l).

(** The alias an item declares. *)
Definition item_alias (w : pyval) : option pyval :=
  match w with
  | PDict d => d !! consts.CONFIG_FIELD_ALIAS
  | _ => None
  end.

Section Calls.
Context {Client Query : Type}.
Variable registry : gset string.

(** The two sides are in step: each side's descriptors carry the registered
    aliases, in order, and the sides agree on kinds, casts and limit. *)
Definition in_step (b : @ValidationBuilder Client) : Prop :=
  AggregateField.alias <$> QueryBuilder.aggregate_fields (source_builder b)
    = aggregate_aliases b ∧
  AggregateField.alias <$> QueryBuilder.aggregate_fields (target_builder b)
    = aggregate_aliases b ∧
  GroupedField.alias <$> QueryBuilder.grouped_fields (source_builder b)
    = group_aliases b ∧
  GroupedField.alias <$> QueryBuilder.grouped_fields (target_builder b)
    = group_aliases b ∧
  AggregateField.kind <$> QueryBuilder.aggregate_fields (source_builder b)
    = AggregateField.kind <$> QueryBuilder.aggregate_fields (target_builder b) ∧
  GroupedField.cast <$> QueryBuilder.grouped_fields (source_builder b)
    = GroupedField.cast <$> QueryBuilder.grouped_fields (target_builder b) ∧
  QueryBuilder.limit (source_builder b) = QueryBuilder.limit (target_builder b).

(** A caller's invocations of the methods that write to the builder, one
    after the other on the same object, going on after an exception. *)
Inductive mutation : Type :=
| AddAggregate (aggregate_field : pyval)
| AddQueryGroup (grouped_field : pyval)
| AddConfigAggregates
| AddConfigQueryGroups
| AddQueryLimit.

Definition mutate (m : mutation) : @M Client Query unit :=
  match m with
  | AddAggregate v => add_aggregate registry v
  | AddQueryGroup v => add_query_group v
  | AddConfigAggregates => add_config_aggregates registry
  | AddConfigQueryGroups => add_config_query_groups
  | AddQueryLimit => add_query_limit
  end.

Fixpoint mutate_all (ms : list mutation) (st : @state Client Query)
    : @state Client Query :=
  match ms with
  | [] => st
  | m :: ms' => mutate_all ms' (snd (mutate m st))
  end.

(** Modelled from the spec: the per-backend compiler as the design has it.
    A specification is read-only once it is handed to the external compiler,
    so a compiler is a function [f] from the specification and the arguments
    to a query or an exception, and the specification it leaves behind is
    the one it was handed. *)
Definition read_only_compiler
    (f : QueryBuilder.t → @compile_kwargs Client → result Query)
    : QueryBuilder.t → @compile_kwargs Client → result Query * QueryBuilder.t :=
  λ qb kw, (f qb kw, qb).

(** The header a query method prints in verbose mode. *)
Definition header (q : query_call) : string :=
  match q with
  | SourceQuery => "-- ** Source Query ** --"
  | TargetQuery => "-- ** Target Query ** --"
  end.
End Calls.

(** Configs for the further properties: one whose aggregate lacks its target
    column, one whose group lacks its alias, one whose [aggregates] is a
    string, one with falsy sequences, and one without a schema. *)
Definition no_target_item : pydict :=
  list_to_map [("source_column", PStr "amount"); ("field_alias", PStr "a");
               ("type", PStr "sum")].

Definition no_target_config : pydict :=
  list_to_map
    [("type", PStr "Column");
     ("aggregates", PList [sum_amount_item "sum_amount"; PDict no_target_item])].

Definition no_alias_item : pydict :=
  list_to_map [("source_column", PStr "region"); ("target_column", PStr "region_cd")].

Definition no_alias_config : pydict :=
  list_to_map
    [("type", PStr "GroupedColumn");
     ("aggregates", PList [sum_amount_item "sum_amount"]);
     ("grouped_columns", PList [region_item "region"; PDict no_alias_item])].

Definition string_aggregates_config : pydict :=
  list_to_map [("type", PStr "Column"); ("aggregates", PStr "count")].

Definition falsy_config : pydict :=
  list_to_map [("type", PStr "Column"); ("aggregates", PInt 0);
               ("grouped_columns", PStr "")].

Definition no_schema_config : pydict :=
  list_to_map [("type", PStr "Column"); ("table_name", PStr "t");
               ("target_schema_name", PStr "ts")].

(** A config with an unsupported validation type and an aggregate of a kind
    outside the registry; one that has the two target overrides and no source
    location; one whose first aggregate is of a kind outside the registry and
    whose second has no [type] key. *)
Definition bogus_median_config : pydict :=
  list_to_map [("type", PStr "Bogus"); ("aggregates", PList [median_item])].

Definition overrides_only_config : pydict :=
  list_to_map [("type", PStr "Column"); ("target_schema_name", PStr "ts");
               ("target_table_name", PStr "tt")].

Definition median_first_config : pydict :=
  list_to_map
    [("type", PStr "Column");
     ("aggregates", PList [median_item; PDict untyped_item])].

(** A compiler that returns the specification and the arguments it was
    handed. *)
Definition handed_compile (qb : QueryBuilder.t) (kw : @compile_kwargs string)
    : result (QueryBuilder.t * @compile_kwargs string) * QueryBuilder.t :=
  (Ok (qb, kw), qb).

(** A group item without a cast, and a config that lists it. *)
Definition no_cast_item : pydict :=
  list_to_map [("source_column", PStr "day"); ("target_column", PStr "dt");
               ("field_alias", PStr "day")].

Definition no_cast_config : pydict :=
  list_to_map
    [("type", PStr "GroupedColumn");
     ("grouped_columns", PList [region_item "region"; PDict no_cast_item])].

Definition same_columns_config : pydict :=
  list_to_map
    [("type", PStr "Column");
     ("aggregates",
      PList [pydict_of [("source_column", PStr "amount");
                        ("target_column", PStr "amount");
                        ("field_alias", PStr "total"); ("type", PStr "sum")]])].

Section Properties.
Context {Client Query : Type}.
Variable registry : gset string.
Variable compile :
  QueryBuilder.t → @compile_kwargs Client → result Query * QueryBuilder.t.

Local Abbreviation St := (@state Client Query).
Local Abbreviation VB := (@ValidationBuilder Client).
Local Abbreviation init := (@__init__ Client Query registry).

Lemma add_aggregate_spec v s (st : St) :
  as_aggregate_spec v = Some s →
  add_aggregate registry v st =
    if bool_decide (agg_type s ∈ registry)
    then (Ok tt, on_self (bind_aggregate s) st)
    else (Raise (UnknownAggregationKind (PStr (agg_type s))), st).
Proof.
  destruct v as [| | | | |d]; try discriminate. cbn.
  destruct (d !! consts.CONFIG_FIELD_ALIAS) as [a|] eqn:Ha; [|discriminate]. cbn.
  destruct (d !! consts.CONFIG_SOURCE_COLUMN) as [sc|] eqn:Hsc; [|discriminate]. cbn.
  destruct (d !! consts.CONFIG_TARGET_COLUMN) as [tc|] eqn:Htc; [|discriminate]. cbn.
  destruct (d !! consts.CONFIG_TYPE) as [[| | |k| |]|] eqn:Hk; try discriminate.
  intros [= <-]. cbn.
  unfold add_aggregate, mbind, M_bind, lift, py_getitem, dict_getitem, py_get,
    dict_get, dict_get_default.
  rewrite Ha, Hsc, Htc, Hk. cbn.
  destruct (bool_decide (k ∈ registry)); reflexivity.
Qed.

Lemma add_aggregate_Ok_inv v (st st' : St) u :
  add_aggregate registry v st = (Ok u, st') →
  ∃ s, as_aggregate_spec v = Some s ∧ agg_type s ∈ registry ∧
       st' = on_self (bind_aggregate s) st.
Proof.
  unfold add_aggregate, mbind, M_bind, lift.
  destruct v as [| | | | |d]; cbn; try discriminate.
  unfold dict_getitem, dict_get, dict_get_default.
  destruct (d !! consts.CONFIG_FIELD_ALIAS) as [a|] eqn:Ha; [|discriminate].
  destruct (d !! consts.CONFIG_SOURCE_COLUMN) as [sc|] eqn:Hsc; [|discriminate].
  destruct (d !! consts.CONFIG_TARGET_COLUMN) as [tc|] eqn:Htc; [|discriminate].
  destruct (d !! consts.CONFIG_TYPE) as [[| | |k| |]|] eqn:Hk; cbn;
    try discriminate.
  destruct (bool_decide (k ∈ registry)) eqn:Hreg; cbn; [|discriminate].
  intros [= <- <-]. exists (Build_AggregateSpec a sc tc k).
  apply bool_decide_eq_true in Hreg. done.
Qed.

Lemma add_aggregate_Raise_state v (st st' : St) e :
  add_aggregate registry v st = (Raise e, st') → st' = st.
Proof.
  unfold add_aggregate, mbind, M_bind, lift, raise.
  destruct v as [| | | | |d]; cbn; try congruence.
  unfold dict_getitem, dict_get, dict_get_default.
  destruct (d !! consts.CONFIG_FIELD_ALIAS) as [a|]; [|cbn; congruence].
  destruct (d !! consts.CONFIG_SOURCE_COLUMN) as [sc|]; [|cbn; congruence].
  destruct (d !! consts.CONFIG_TARGET_COLUMN) as [tc|]; [|cbn; congruence].
  destruct (d !! consts.CONFIG_TYPE) as [[| | |k| |]|]; cbn; try congruence.
  destruct (bool_decide (k ∈ registry)); cbn; unfold modify_self; congruence.
Qed.

Lemma add_query_group_spec v g (st : St) :
  as_group_spec v = Some g →
  add_query_group v st = (Ok tt, on_self (bind_group g) st).
Proof.
  destruct v as [| | | | |d]; try discriminate. cbn.
  destruct (d !! consts.CONFIG_FIELD_ALIAS) as [a|] eqn:Ha; [|discriminate]. cbn.
  destruct (d !! consts.CONFIG_SOURCE_COLUMN) as [sc|] eqn:Hsc; [|discriminate]. cbn.
  destruct (d !! consts.CONFIG_TARGET_COLUMN) as [tc|] eqn:Htc; [|discriminate]. cbn.
  intros [= <-].
  unfold add_query_group, mbind, M_bind, lift, py_getitem, dict_getitem, py_get.
  rewrite Ha, Hsc, Htc. reflexivity.
Qed.

Lemma add_query_group_Ok_inv v (st st' : St) u :
  add_query_group v st = (Ok u, st') →
  ∃ g, as_group_spec v = Some g ∧ st' = on_self (bind_group g) st.
Proof.
  unfold add_query_group, mbind, M_bind, lift.
  destruct v as [| | | | |d]; cbn; try discriminate.
  unfold dict_getitem.
  destruct (d !! consts.CONFIG_FIELD_ALIAS) as [a|] eqn:Ha; [|discriminate].
  destruct (d !! consts.CONFIG_SOURCE_COLUMN) as [sc|] eqn:Hsc; [|discriminate].
  destruct (d !! consts.CONFIG_TARGET_COLUMN) as [tc|] eqn:Htc; [|discriminate].
  cbn. intros [= <- <-]. eauto.
Qed.

(** *** The binding loops *)

Lemma for_each_app {A} (l1 l2 : list A) (body : A → M unit) (st : St) :
  for_each (l1 ++ l2) body st =
    match for_each l1 body st with
    | (Ok _, st') => for_each l2 body st'
    | (Raise e, st') => (Raise e, st')
    end.
Proof.
  revert st. induction l1 as [|x l1 IH]; intros st; [reflexivity|].
  cbn. unfold mbind, M_bind. destruct (body x st) as [[[]|e] st1]; auto.
Qed.

Lemma for_each_aggregates_Ok items specs (st : St) :
  Forall2 (λ v s, as_aggregate_spec v = Some s) items specs →
  Forall (λ s, agg_type s ∈ registry) specs →
  for_each items (add_aggregate registry) st =
    (Ok tt, on_self (bind_aggregates specs) st).
Proof.
  intros H. revert st. induction H as [|v s items specs Hv _ IH]; intros st Hreg.
  - destruct st; reflexivity.
  - apply Forall_cons in Hreg as [Hs Hreg]. cbn. unfold mbind, M_bind.
    rewrite (add_aggregate_spec _ _ _ Hv), bool_decide_eq_true_2 by done.
    rewrite IH by done. reflexivity.
Qed.

Lemma for_each_aggregates_Ok_inv items (st st' : St) u :
  for_each items (add_aggregate registry) st = (Ok u, st') →
  ∃ specs, Forall2 (λ v s, as_aggregate_spec v = Some s) items specs ∧
           Forall (λ s, agg_type s ∈ registry) specs ∧
           st' = on_self (bind_aggregates specs) st.
Proof.
  revert st. induction items as [|v items IH]; intros st; cbn.
  - intros [= <- <-]. exists []. destruct st. by repeat constructor.
  - unfold mbind, M_bind.
    destruct (add_aggregate registry v st) as [[[]|e] st1] eqn:Hv; [|discriminate].
    apply add_aggregate_Ok_inv in Hv as (s & Hs & Hreg & ->).
    intros (specs & HF & HR & ->)%IH. exists (s :: specs).
    by repeat constructor.
Qed.

Lemma for_each_groups_Ok items groups (st : St) :
  Forall2 (λ v g, as_group_spec v = Some g) items groups →
  for_each items add_query_group st = (Ok tt, on_self (bind_groups groups) st).
Proof.
  intros H. revert st. induction H as [|v g items groups Hv _ IH]; intros st.
  - destruct st; reflexivity.
  - cbn. unfold mbind, M_bind. rewrite (add_query_group_spec _ _ _ Hv), IH.
    reflexivity.
Qed.

Lemma for_each_groups_Ok_inv items (st st' : St) u :
  for_each items add_query_group st = (Ok u, st') →
  ∃ groups, Forall2 (λ v g, as_group_spec v = Some g) items groups ∧
            st' = on_self (bind_groups groups) st.
Proof.
  revert st. induction items as [|v items IH]; intros st; cbn.
  - intros [= <- <-]. exists []. destruct st. by repeat constructor.
  - unfold mbind, M_bind.
    destruct (add_query_group v st) as [[[]|e] st1] eqn:Hv; [|discriminate].
    apply add_query_group_Ok_inv in Hv as (g & Hg & ->).
    intros (groups & HF & ->)%IH. exists (g :: groups). by repeat constructor.
Qed.

Lemma bind_aggregates_eq specs (b : VB) :
  bind_aggregates specs b =
    {| verbose := verbose b; config := config b;
       validation_type := validation_type b;
       source_client := source_client b; target_client := target_client b;
       source_builder :=
         QueryBuilder.make
           (QueryBuilder.aggregate_fields (source_builder b)
              ++ (source_aggregate <$> specs))
           (QueryBuilder.grouped_fields (source_builder b))
           (QueryBuilder.limit (source_builder b));
       target_builder :=
         QueryBuilder.make
           (QueryBuilder.aggregate_fields (target_builder b)
              ++ (target_aggregate <$> specs))
           (QueryBuilder.grouped_fields (target_builder b))
           (QueryBuilder.limit (target_builder b));
       aggregate_aliases := aggregate_aliases b ++ (agg_alias <$> specs);
       group_aliases := group_aliases b |}.
Proof.
  revert b. induction specs as [|s specs IH]; intros b.
  - destruct b as [? ? ? ? ? [] [] ? ?]; cbn. by rewrite !app_nil_r.
  - unfold bind_aggregates in *. cbn. rewrite IH. cbn.
    by rewrite <- !app_assoc.
Qed.

Lemma bind_groups_eq groups (b : VB) :
  bind_groups groups b =
    {| verbose := verbose b; config := config b;
       validation_type := validation_type b;
       source_client := source_client b; target_client := target_client b;
       source_builder :=
         QueryBuilder.make
           (QueryBuilder.aggregate_fields (source_builder b))
           (QueryBuilder.grouped_fields (source_builder b)
              ++ (source_group <$> groups))
           (QueryBuilder.limit (source_builder b));
       target_builder :=
         QueryBuilder.make
           (QueryBuilder.aggregate_fields (target_builder b))
           (QueryBuilder.grouped_fields (target_builder b)
              ++ (target_group <$> groups))
           (QueryBuilder.limit (target_builder b));
       aggregate_aliases := aggregate_aliases b;
       group_aliases := group_aliases b ++ (grp_alias <$> groups) |}.
Proof.
  revert b. induction groups as [|g groups IH]; intros b.
  - destruct b as [? ? ? ? ? [] [] ? ?]; cbn. by rewrite !app_nil_r.
  - unfold bind_groups in *. cbn. rewrite IH. cbn.
    by rewrite <- !app_assoc.
Qed.

(** *** The construction steps *)

Lemma add_config_aggregates_run (st : St) :
  add_config_aggregates registry st =
    match aggregate_items (config (self st)) with
    | Ok items => for_each items (add_aggregate registry) st
    | Raise e => (Raise e, st)
    end.
Proof.
  unfold add_config_aggregates, get_config_aggregates, aggregate_items,
    mbind, M_bind, get_self, mret, M_ret, lift.
  by destruct (py_iter _).
Qed.

Lemma add_config_query_groups_run (st : St) :
  add_config_query_groups st =
    match group_items (config (self st)) with
    | Ok items => for_each items add_query_group st
    | Raise e => (Raise e, st)
    end.
Proof.
  unfold add_config_query_groups, get_config_query_groups, group_items,
    mbind, M_bind, get_self, mret, M_ret, lift.
  by destruct (py_iter _).
Qed.

Lemma add_query_limit_run (st : St) :
  add_query_limit st =
    (Ok tt,
     on_self (λ b,
       let limit := dict_get (config b) consts.CONFIG_LIMIT in
       with_target_builder (QueryBuilder.set_limit limit)
         (with_source_builder (QueryBuilder.set_limit limit) b)) st).
Proof. reflexivity. Qed.

Lemma get_query_builder_Ok vt :
  supported_type vt →
  get_query_builder vt = Ok QueryBuilder.build_count_validator.
Proof. by intros [-> | ->]. Qed.

Lemma get_query_builder_Ok_inv vt qb :
  get_query_builder vt = Ok qb →
  supported_type vt ∧ qb = QueryBuilder.build_count_validator.
Proof.
  unfold get_query_builder, py_in_strs, supported_type.
  destruct vt as [| | |s| |]; try discriminate.
  case_bool_decide as Hs; [|discriminate].
  intros [= <-]. split; [|done].
  rewrite !elem_of_cons, elem_of_nil in Hs.
  destruct Hs as [->|[->|[]]]; auto.
Qed.

Lemma get_query_builder_Raise vt :
  ¬ supported_type vt →
  get_query_builder vt = Raise (UnsupportedValidationType vt).
Proof.
  intros Hn. unfold get_query_builder.
  destruct (py_in_strs vt _) eqn:Hin; [|done].
  destruct Hn. unfold py_in_strs in Hin. destruct vt; try discriminate.
  apply bool_decide_eq_true in Hin.
  rewrite !elem_of_cons, elem_of_nil in Hin. unfold supported_type.
  destruct Hin as [->|[->|[]]]; auto.
Qed.

Lemma declared_aggregates_Some c aggs :
  declared_aggregates c = Some aggs ↔
  ∃ items, aggregate_items c = Ok items ∧
           Forall2 (λ v s, as_aggregate_spec v = Some s) items aggs.
Proof.
  unfold declared_aggregates. destruct (aggregate_items c) as [items|e].
  - rewrite mapM_Some. split; [eauto|]. by intros (? & [= <-] & ?).
  - split; [done|]. by intros (? & ? & ?).
Qed.

Lemma declared_groups_Some c groups :
  declared_groups c = Some groups ↔
  ∃ items, group_items c = Ok items ∧
           Forall2 (λ v g, as_group_spec v = Some g) items groups.
Proof.
  unfold declared_groups. destruct (group_items c) as [items|e].
  - rewrite mapM_Some. split; [eauto|]. by intros (? & [= <-] & ?).
  - split; [done|]. by intros (? & ? & ?).
Qed.

Lemma bound_fresh_eq c vt (sc tc : Client) v aggs groups :
  (let b := bind_groups groups (bind_aggregates aggs (fresh c vt sc tc v)) in
   let limit := dict_get (config b) consts.CONFIG_LIMIT in
   with_target_builder (QueryBuilder.set_limit limit)
     (with_source_builder (QueryBuilder.set_limit limit) b))
  = built c vt sc tc v aggs groups.
Proof. cbn. rewrite bind_groups_eq, bind_aggregates_eq. reflexivity. Qed.

(** Construction succeeds exactly on a config with a supported type whose
    items are all specs of registered kinds, and returns [built]. *)
Lemma init_Ok c vt sc tc v aggs groups :
  c !! consts.CONFIG_TYPE = Some vt →
  supported_type vt →
  declared_aggregates c = Some aggs →
  Forall (λ s, agg_type s ∈ registry) aggs →
  declared_groups c = Some groups →
  init c sc tc v = Ok (built c vt sc tc v aggs groups).
Proof.
  intros Hvt Hsup (ia & Hia & Ha)%declared_aggregates_Some Hreg
    (ig & Hig & Hg)%declared_groups_Some.
  unfold __init__, dict_getitem. rewrite Hvt. cbn.
  rewrite (get_query_builder_Ok _ Hsup). cbn.
  unfold build_steps, mbind at 1 2, M_bind.
  rewrite add_config_aggregates_run. cbn. rewrite Hia.
  rewrite (for_each_aggregates_Ok _ _ _ Ha Hreg).
  rewrite add_config_query_groups_run. cbn.
  rewrite bind_aggregates_eq at 1. cbn. rewrite Hig.
  rewrite (for_each_groups_Ok _ _ _ Hg).
  rewrite add_query_limit_run. cbn. f_equal.
  apply bound_fresh_eq.
Qed.

Lemma init_Ok_inv c sc tc v b :
  init c sc tc v = Ok b →
  ∃ vt aggs groups,
    c !! consts.CONFIG_TYPE = Some vt ∧ supported_type vt ∧
    declared_aggregates c = Some aggs ∧
    Forall (λ s, agg_type s ∈ registry) aggs ∧
    declared_groups c = Some groups ∧
    b = built c vt sc tc v aggs groups.
Proof.
  unfold __init__, dict_getitem.
  destruct (c !! consts.CONFIG_TYPE) as [vt|] eqn:Hvt; [|discriminate]. cbn.
  destruct (get_query_builder vt) as [qb|] eqn:Hqb; [|discriminate]. cbn.
  apply get_query_builder_Ok_inv in Hqb as [Hsup ->].
  unfold build_steps, mbind at 1 2, M_bind.
  rewrite add_config_aggregates_run. cbn.
  destruct (aggregate_items c) as [ia|] eqn:Hia; [|discriminate].
  destruct (for_each ia _ _) as [[[]|] st1] eqn:Hfa; [|discriminate].
  apply for_each_aggregates_Ok_inv in Hfa as (aggs & Ha & Hreg & ->).
  rewrite add_config_query_groups_run. cbn.
  rewrite bind_aggregates_eq at 1. cbn.
  destruct (group_items c) as [ig|] eqn:Hig; [|discriminate].
  destruct (for_each ig _ _) as [[[]|] st2] eqn:Hfg; [|discriminate].
  apply for_each_groups_Ok_inv in Hfg as (groups & Hg & ->).
  rewrite add_query_limit_run. cbn. intros [= <-].
  exists vt, aggs, groups. split_and!; try done.
  - apply declared_aggregates_Some; eauto.
  - apply declared_groups_Some; eauto.
  - apply bound_fresh_eq.
Qed.

(** *** The items of a config *)

Lemma py_iter_declared c k l :
  declared_items c k = l → l ≠ [] →
  py_iter (py_or (dict_get c k) (PList [])) = Ok l.
Proof.
  unfold declared_items, dict_get, dict_get_default.
  destruct (c !! k) as [[| | | |l'|]|]; try (by intros <- []).
  intros -> Hl. by destruct l.
Qed.

Lemma py_iter_dicts c k items :
  py_iter (py_or (dict_get c k) (PList [])) = Ok items →
  Forall (λ w, is_dict w = true) items →
  items = declared_items c k.
Proof.
  unfold declared_items, dict_get, dict_get_default, py_or.
  destruct (c !! k) as [[|b|z|s|l|d]|]; cbn.
  - by intros [= <-].
  - destruct b; cbn; [discriminate|by intros [= <-]].
  - destruct (Z.eqb z 0); cbn; [by intros [= <-]|discriminate].
  - destruct s as [|a s]; cbn; [by intros [= <-]|].
    intros [= <-] Hd. by apply Forall_cons in Hd as [[=] _].
  - destruct l; by intros [= <-].
  - case_bool_decide as Hd; cbn; [by intros [= <-]|].
    intros [= <-] Hall.
    destruct (map_to_list d) as [|[k' v'] l] eqn:Hl.
    + by apply map_to_list_empty_iff in Hl.
    + by apply Forall_cons in Hall as [[=] _].
  - by intros [= <-].
Qed.

Lemma as_aggregate_spec_is_dict w s : as_aggregate_spec w = Some s → is_dict w = true.
Proof. by destruct w. Qed.

Lemma as_group_spec_is_dict w g : as_group_spec w = Some g → is_dict w = true.
Proof. by destruct w. Qed.

Lemma as_aggregate_spec_alias w s :
  as_aggregate_spec w = Some s → item_alias w = Some (agg_alias s).
Proof.
  destruct w as [| | | | |d]; try discriminate. cbn.
  destruct (d !! consts.CONFIG_FIELD_ALIAS) as [a|]; [|discriminate]. cbn.
  destruct (d !! consts.CONFIG_SOURCE_COLUMN); [|discriminate]. cbn.
  destruct (d !! consts.CONFIG_TARGET_COLUMN); [|discriminate]. cbn.
  destruct (d !! consts.CONFIG_TYPE) as [[| | |k| |]|]; try discriminate.
  by intros [= <-].
Qed.

Lemma as_group_spec_alias w g :
  as_group_spec w = Some g → item_alias w = Some (grp_alias g).
Proof.
  destruct w as [| | | | |d]; try discriminate. cbn.
  destruct (d !! consts.CONFIG_FIELD_ALIAS) as [a|]; [|discriminate]. cbn.
  destruct (d !! consts.CONFIG_SOURCE_COLUMN); [|discriminate]. cbn.
  destruct (d !! consts.CONFIG_TARGET_COLUMN); [|discriminate]. cbn.
  by intros [= <-].
Qed.

Lemma declared_aggregates_items c aggs :
  declared_aggregates c = Some aggs →
  Forall2 (λ w s, as_aggregate_spec w = Some s)
    (declared_items c consts.CONFIG_AGGREGATES) aggs.
Proof.
  intros (items & Hitems & Ha)%declared_aggregates_Some.
  rewrite <- (py_iter_dicts _ _ _ Hitems); [done|].
  apply Forall_forall. intros w Hw.
  apply list_elem_of_lookup in Hw as [i Hi].
  destruct (Forall2_lookup_l _ _ _ _ _ Ha Hi) as (s & _ & Hs).
  by eapply as_aggregate_spec_is_dict.
Qed.

Lemma declared_groups_items c groups :
  declared_groups c = Some groups →
  Forall2 (λ w g, as_group_spec w = Some g)
    (declared_items c consts.CONFIG_GROUPED_COLUMNS) groups.
Proof.
  intros (items & Hitems & Hg)%declared_groups_Some.
  rewrite <- (py_iter_dicts _ _ _ Hitems); [done|].
  apply Forall_forall. intros w Hw.
  apply list_elem_of_lookup in Hw as [i Hi].
  destruct (Forall2_lookup_l _ _ _ _ _ Hg Hi) as (g & _ & Hs).
  by eapply as_group_spec_is_dict.
Qed.

Lemma Forall2_functional {A B} (f : A → option B) l k1 k2 :
  Forall2 (λ x y, f x = Some y) l k1 →
  Forall2 (λ x y, f x = Some y) l k2 → k1 = k2.
Proof.
  intros H. revert k2. induction H as [|x y l k1 Hx _ IH]; intros k2 H2.
  - by apply Forall2_nil_inv_l in H2.
  - apply Forall2_cons_inv_l in H2 as (y' & k2' & Hy' & H2 & ->).
    rewrite Hx in Hy'. injection Hy' as <-. f_equal. by apply IH.
Qed.

(** *** Properties of a finished construction *)

(** C1: when construction succeeds, every item the config lists under
    [aggregates] is an aggregate spec and every item it lists under
    [grouped_columns] is a group spec, and the source and the target
    specification hold one descriptor per listed spec, in declaration order:
    the source one built from the spec's source column, the target one from
    its target column, both under the spec's alias (and cast, for a group).
    So each side has as many aggregate descriptors as the config lists
    aggregates and as many grouped descriptors as it lists groups, and the
    sides agree in alias sequence and cast sequence. *)
Theorem descriptor_parity c sc tc v b :
  init c sc tc v = Ok b →
  ∃ aggs groups,
    Forall2 (λ w s, as_aggregate_spec w = Some s)
      (declared_items c consts.CONFIG_AGGREGATES) aggs ∧
    Forall2 (λ w g, as_group_spec w = Some g)
      (declared_items c consts.CONFIG_GROUPED_COLUMNS) groups ∧
    QueryBuilder.aggregate_fields (source_builder b) = source_aggregate <$> aggs ∧
    QueryBuilder.aggregate_fields (target_builder b) = target_aggregate <$> aggs ∧
    QueryBuilder.grouped_fields (source_builder b) = source_group <$> groups ∧
    QueryBuilder.grouped_fields (target_builder b) = target_group <$> groups ∧
    length (QueryBuilder.aggregate_fields (source_builder b))
      = length (declared_items c consts.CONFIG_AGGREGATES) ∧
    length (QueryBuilder.aggregate_fields (target_builder b))
      = length (declared_items c consts.CONFIG_AGGREGATES) ∧
    length (QueryBuilder.grouped_fields (source_builder b))
      = length (declared_items c consts.CONFIG_GROUPED_COLUMNS) ∧
    length (QueryBuilder.grouped_fields (target_builder b))
      = length (declared_items c consts.CONFIG_GROUPED_COLUMNS) ∧
    AggregateField.alias <$> QueryBuilder.aggregate_fields (source_builder b)
      = AggregateField.alias <$> QueryBuilder.aggregate_fields (target_builder b) ∧
    GroupedField.alias <$> QueryBuilder.grouped_fields (source_builder b)
      = GroupedField.alias <$> QueryBuilder.grouped_fields (target_builder b) ∧
    GroupedField.cast <$> QueryBuilder.grouped_fields (source_builder b)
      = GroupedField.cast <$> QueryBuilder.grouped_fields (target_builder b).
Proof.
  intros (vt & aggs & groups & _ & _ & Ha & _ & Hg & ->)%init_Ok_inv.
  apply declared_aggregates_items in Ha. apply declared_groups_items in Hg.
  exists aggs, groups. cbn. rewrite !length_fmap, <- !list_fmap_compose.
  rewrite (Forall2_length _ _ _ Ha), (Forall2_length _ _ _ Hg).
  split_and!; done.
Qed.

(** C4: when construction succeeds on a config that lists N items under
    [aggregates] and M items under [grouped_columns], [get_aggregate_aliases]
    returns N aliases and [get_group_aliases] returns M aliases: the
    [field_alias] of each listed item, in declaration order. *)
Theorem alias_registries c sc tc v b out :
  init c sc tc v = Ok b →
  ∃ la lg,
    fst (@get_aggregate_aliases Client Query {| self := b; stdout := out |}) = Ok la ∧
    fst (@get_group_aliases Client Query {| self := b; stdout := out |}) = Ok lg ∧
    Forall2 (λ w a, item_alias w = Some a)
      (declared_items c consts.CONFIG_AGGREGATES) la ∧
    Forall2 (λ w a, item_alias w = Some a)
      (declared_items c consts.CONFIG_GROUPED_COLUMNS) lg ∧
    length la = length (declared_items c consts.CONFIG_AGGREGATES) ∧
    length lg = length (declared_items c consts.CONFIG_GROUPED_COLUMNS).
Proof.
  intros (vt & aggs & groups & _ & _ & Ha & _ & Hg & ->)%init_Ok_inv.
  apply declared_aggregates_items in Ha. apply declared_groups_items in Hg.
  exists (agg_alias <$> aggs), (grp_alias <$> groups). cbn.
  rewrite !length_fmap, (Forall2_length _ _ _ Ha), (Forall2_length _ _ _ Hg).
  split_and!; try done.
  - apply Forall2_fmap_r. eapply Forall2_impl; [exact Ha|].
    intros w s. apply as_aggregate_spec_alias.
  - apply Forall2_fmap_r. eapply Forall2_impl; [exact Hg|].
    intros w g. apply as_group_spec_alias.
Qed.

(** C5: after construction both specifications carry the limit of the
    config: unset ([None]) when the config has no [limit] key, and 500 when
    the config has [limit = 500]. *)
Theorem limit_parity c sc tc v b :
  init c sc tc v = Ok b →
  QueryBuilder.limit (source_builder b) = dict_get c consts.CONFIG_LIMIT ∧
  QueryBuilder.limit (target_builder b) = dict_get c consts.CONFIG_LIMIT ∧
  (c !! consts.CONFIG_LIMIT = None →
   QueryBuilder.limit (source_builder b) = PNone ∧
   QueryBuilder.limit (target_builder b) = PNone) ∧
  (c !! consts.CONFIG_LIMIT = Some (PInt 500) →
   QueryBuilder.limit (source_builder b) = PInt 500 ∧
   QueryBuilder.limit (target_builder b) = PInt 500).
Proof.
  intros (vt & aggs & groups & _ & _ & _ & _ & _ & ->)%init_Ok_inv.
  cbn. unfold dict_get, dict_get_default.
  split_and!; try done; by intros ->.
Qed.

Lemma declared_aggregates_empty c :
  c !! consts.CONFIG_AGGREGATES = None ∨
  c !! consts.CONFIG_AGGREGATES = Some (PList []) →
  declared_aggregates c = Some [].
Proof.
  unfold declared_aggregates, aggregate_items, dict_get, dict_get_default.
  by intros [-> | ->].
Qed.

Lemma declared_groups_empty c :
  c !! consts.CONFIG_GROUPED_COLUMNS = None ∨
  c !! consts.CONFIG_GROUPED_COLUMNS = Some (PList []) →
  declared_groups c = Some [].
Proof.
  unfold declared_groups, group_items, dict_get, dict_get_default.
  by intros [-> | ->].
Qed.

(** C8: on a config with a supported validation type whose [aggregates]
    and [grouped_columns] are empty or absent, construction succeeds, and
    both specifications have no aggregate and no grouped descriptor and both
    alias registries are empty. *)
Theorem empty_config c vt sc tc v :
  c !! consts.CONFIG_TYPE = Some vt →
  supported_type vt →
  (c !! consts.CONFIG_AGGREGATES = None ∨
   c !! consts.CONFIG_AGGREGATES = Some (PList [])) →
  (c !! consts.CONFIG_GROUPED_COLUMNS = None ∨
   c !! consts.CONFIG_GROUPED_COLUMNS = Some (PList [])) →
  ∃ b, init c sc tc v = Ok b ∧
       QueryBuilder.aggregate_fields (source_builder b) = [] ∧
       QueryBuilder.grouped_fields (source_builder b) = [] ∧
       QueryBuilder.aggregate_fields (target_builder b) = [] ∧
       QueryBuilder.grouped_fields (target_builder b) = [] ∧
       aggregate_aliases b = [] ∧ group_aliases b = [].
Proof.
  intros Hvt Hsup Ha%declared_aggregates_empty Hg%declared_groups_empty.
  exists (built c vt sc tc v [] []). split_and!; try done.
  by apply init_Ok.
Qed.

(** C9: alias uniqueness is never enforced.  On a config whose items all
    bind, construction succeeds whether or not aliases repeat; when two
    aggregate specs (or two group specs) at different positions share an
    alias, each side holds the descriptor of both and the alias registry
    holds the alias at both positions. *)
Theorem shared_alias_accepted c vt sc tc v aggs groups :
  c !! consts.CONFIG_TYPE = Some vt →
  supported_type vt →
  declared_aggregates c = Some aggs →
  Forall (λ s, agg_type s ∈ registry) aggs →
  declared_groups c = Some groups →
  ∃ b, init c sc tc v = Ok b ∧
    (∀ i j s1 s2, i ≠ j → aggs !! i = Some s1 → aggs !! j = Some s2 →
       agg_alias s1 = agg_alias s2 →
       QueryBuilder.aggregate_fields (source_builder b) !! i = Some (source_aggregate s1) ∧
       QueryBuilder.aggregate_fields (source_builder b) !! j = Some (source_aggregate s2) ∧
       QueryBuilder.aggregate_fields (target_builder b) !! i = Some (target_aggregate s1) ∧
       QueryBuilder.aggregate_fields (target_builder b) !! j = Some (target_aggregate s2) ∧
       aggregate_aliases b !! i = Some (agg_alias s1) ∧
       aggregate_aliases b !! j = Some (agg_alias s1)) ∧
    (∀ i j g1 g2, i ≠ j → groups !! i = Some g1 → groups !! j = Some g2 →
       grp_alias g1 = grp_alias g2 →
       QueryBuilder.grouped_fields (source_builder b) !! i = Some (source_group g1) ∧
       QueryBuilder.grouped_fields (source_builder b) !! j = Some (source_group g2) ∧
       QueryBuilder.grouped_fields (target_builder b) !! i = Some (target_group g1) ∧
       QueryBuilder.grouped_fields (target_builder b) !! j = Some (target_group g2) ∧
       group_aliases b !! i = Some (grp_alias g1) ∧
       group_aliases b !! j = Some (grp_alias g1)) ∧
    length (aggregate_aliases b) = length aggs ∧
    length (group_aliases b) = length groups.
Proof.
  intros Hvt Hsup Ha Hreg Hg.
  exists (built c vt sc tc v aggs groups). split; [by apply init_Ok|].
  cbn. rewrite !length_fmap. split_and!; try done.
  - intros i j s1 s2 _ H1 H2 Heq. rewrite !list_lookup_fmap, H1, H2. cbn.
    by rewrite Heq.
  - intros i j g1 g2 _ H1 H2 Heq. rewrite !list_lookup_fmap, H1, H2. cbn.
    by rewrite Heq.
Qed.

(** *** Failures *)

Lemma first_unregistered (aggs : list AggregateSpec) s :
  s ∈ aggs → agg_type s ∉ registry →
  ∃ pre bad post,
    aggs = pre ++ (bad :: post) ∧
    Forall (λ s, agg_type s ∈ registry) pre ∧ agg_type bad ∉ registry.
Proof.
  intros Hin Hs. induction aggs as [|a aggs IH]; [by apply elem_of_nil in Hin|].
  destruct (decide (agg_type a ∈ registry)) as [Ha|Ha].
  - apply elem_of_cons in Hin as [->|Hin]; [done|].
    destruct (IH Hin) as (pre & bad & post & -> & Hpre & Hbad).
    exists (a :: pre), bad, post. by repeat constructor.
  - exists [], a, aggs. by repeat constructor.
Qed.

Lemma for_each_aggregates_unknown items pre bad post (st : St) :
  Forall2 (λ v s, as_aggregate_spec v = Some s) items (pre ++ (bad :: post)) →
  Forall (λ s, agg_type s ∈ registry) pre →
  agg_type bad ∉ registry →
  for_each items (add_aggregate registry) st =
    (Raise (UnknownAggregationKind (PStr (agg_type bad))),
     on_self (bind_aggregates pre) st).
Proof.
  intros (i1 & i2 & H1 & H2 & ->)%Forall2_app_inv_r Hpre Hbad.
  apply Forall2_cons_inv_r in H2 as (vb & i2' & Hvb & _ & ->).
  rewrite for_each_app, (for_each_aggregates_Ok _ _ _ H1 Hpre). cbn.
  unfold mbind, M_bind.
  by rewrite (add_aggregate_spec _ _ _ Hvb), bool_decide_eq_false_2.
Qed.

Lemma init_type_cases c sc tc v :
  (c !! consts.CONFIG_TYPE = None ∧
   init c sc tc v = Raise (KeyError consts.CONFIG_TYPE)) ∨
  (∃ vt, c !! consts.CONFIG_TYPE = Some vt ∧ ¬ supported_type vt ∧
         init c sc tc v = Raise (UnsupportedValidationType vt)) ∨
  (∃ vt, c !! consts.CONFIG_TYPE = Some vt ∧ supported_type vt).
Proof.
  unfold __init__, dict_getitem.
  destruct (c !! consts.CONFIG_TYPE) as [vt|]; [|by left]. right. cbn.
  destruct (get_query_builder vt) as [qb|e] eqn:Hqb.
  - right. exists vt. split; [done|]. by apply get_query_builder_Ok_inv in Hqb as [? _].
  - left. exists vt. split; [done|].
    assert (Hn : ¬ supported_type vt).
    { intros Hsup. by rewrite (get_query_builder_Ok _ Hsup) in Hqb. }
    split; [done|]. rewrite (get_query_builder_Raise _ Hn) in Hqb.
    by injection Hqb as <-.
Qed.

Lemma init_aggregates_Raise c vt sc tc v items e (st' : St) :
  c !! consts.CONFIG_TYPE = Some vt →
  supported_type vt →
  aggregate_items c = Ok items →
  for_each items (add_aggregate registry)
    {| self := fresh c vt sc tc v; stdout := [] |} = (Raise e, st') →
  init c sc tc v = Raise e ∧
  build_steps registry {| self := fresh c vt sc tc v; stdout := [] |}
    = (Raise e, st').
Proof.
  intros Hvt Hsup Hitems Hrun.
  assert (Hsteps : build_steps registry {| self := fresh c vt sc tc v; stdout := [] |}
                   = (Raise e, st')).
  { unfold build_steps, mbind at 1, M_bind.
    rewrite add_config_aggregates_run. cbn. by rewrite Hitems, Hrun. }
  split; [|done].
  unfold __init__, dict_getitem. rewrite Hvt. cbn.
  rewrite (get_query_builder_Ok _ Hsup). cbn.
  unfold fresh in Hsteps. by rewrite Hsteps.
Qed.

(** C2: a config that lists an aggregate spec whose kind is outside the
    registry is never constructed: [__init__] raises and returns no object.
    When the validation type is supported and the items listed before that
    spec are aggregate specs, the exception is [UnknownAggregationKind],
    raised at the first spec of a kind outside the registry, and at that
    point the two specifications hold the descriptors of the specs before it
    only: nothing of it, of a later item or of a group, and no limit. *)
Theorem unknown_aggregation_aborts c sc tc v pre w post s :
  declared_items c consts.CONFIG_AGGREGATES = pre ++ w :: post →
  as_aggregate_spec w = Some s →
  agg_type s ∉ registry →
  (∃ e, init c sc tc v = Raise e) ∧
  ∀ vt specs,
    c !! consts.CONFIG_TYPE = Some vt →
    supported_type vt →
    Forall2 (λ w s, as_aggregate_spec w = Some s) pre specs →
    ∃ bound bad rest,
      specs ++ [s] = bound ++ (bad :: rest) ∧
      Forall (λ s, agg_type s ∈ registry) bound ∧
      (agg_type bad ∉ registry) ∧
      init c sc tc v = Raise (UnknownAggregationKind (PStr (agg_type bad))) ∧
      ∃ st : St,
        (build_steps registry {| self := fresh c vt sc tc v; stdout := [] |}
           = (Raise (UnknownAggregationKind (PStr (agg_type bad))), st)) ∧
        source_builder (self st)
          = QueryBuilder.make (source_aggregate <$> bound) [] PNone ∧
        target_builder (self st)
          = QueryBuilder.make (target_aggregate <$> bound) [] PNone ∧
        aggregate_aliases (self st) = agg_alias <$> bound ∧
        group_aliases (self st) = [].
Proof.
  intros Hdecl Hw Hs.
  assert (Hitems : aggregate_items c = Ok (pre ++ w :: post)).
  { apply py_iter_declared; [done|]. by destruct pre. }
  split.
  - destruct (init_type_cases c sc tc v)
      as [[_ H]|[(vt & _ & _ & H)|(vt & Hvt & Hsup)]]; [eauto..|].
    destruct (for_each (pre ++ w :: post) (add_aggregate registry)
                ({| self := fresh c vt sc tc v; stdout := [] |} : St))
      as [[[]|e] st'] eqn:Hrun.
    + rewrite for_each_app in Hrun.
      destruct (for_each pre _ _) as [[[]|e1] st1]; [|discriminate].
      cbn in Hrun. unfold mbind, M_bind in Hrun.
      rewrite (add_aggregate_spec _ _ _ Hw), bool_decide_eq_false_2 in Hrun by done.
      discriminate.
    + exists e. by eapply init_aggregates_Raise.
  - intros vt specs Hvt Hsup Hpre.
    assert (Hsa : s ∈ specs ++ [s]) by (apply elem_of_app; right; by left).
    destruct (first_unregistered _ _ Hsa Hs)
      as (bound & bad & rest & Heq & Hbound & Hbad).
    exists bound, bad, rest.
    assert (Hall : Forall2 (λ w s, as_aggregate_spec w = Some s)
                     (pre ++ [w]) (bound ++ bad :: rest)).
    { rewrite <- Heq. apply Forall2_app; [done|]. by repeat constructor. }
    pose proof (for_each_aggregates_unknown _ _ _ _
                  ({| self := fresh c vt sc tc v; stdout := [] |} : St)
                  Hall Hbound Hbad) as Hrun.
    assert (Hrun' : for_each (pre ++ w :: post) (add_aggregate registry)
                      ({| self := fresh c vt sc tc v; stdout := [] |} : St)
                    = (Raise (UnknownAggregationKind (PStr (agg_type bad))),
                       on_self (bind_aggregates bound)
                         {| self := fresh c vt sc tc v; stdout := [] |})).
    { change (pre ++ w :: post) with (pre ++ ([w] ++ post)).
      rewrite app_assoc, for_each_app. by rewrite Hrun. }
    destruct (init_aggregates_Raise _ _ sc tc v _ _ _ Hvt Hsup Hitems Hrun')
      as [Hinit Hsteps].
    split_and!; try done.
    eexists. split; [exact Hsteps|].
    cbn. rewrite bind_aggregates_eq. done.
Qed.

(** C3: a validation type outside [Column], [GroupedColumn] makes
    construction raise [UnsupportedValidationType] and return no object; a
    validation type in the set passes [get_query_builder]. *)
Theorem validation_type_checked c vt sc tc v :
  c !! consts.CONFIG_TYPE = Some vt →
  (¬ supported_type vt →
   get_query_builder vt = Raise (UnsupportedValidationType vt) ∧
   init c sc tc v = Raise (UnsupportedValidationType vt)) ∧
  (supported_type vt →
   get_query_builder vt = Ok QueryBuilder.build_count_validator).
Proof.
  intros Hvt. split.
  - intros Hn. split; [by apply get_query_builder_Raise|].
    unfold __init__, dict_getitem. rewrite Hvt. cbn.
    by rewrite (get_query_builder_Raise _ Hn).
  - apply get_query_builder_Ok.
Qed.

Lemma add_aggregate_Unknown_inv v (st st' : St) e :
  add_aggregate registry v st = (Raise e, st') →
  is_UnknownAggregationKind e →
  ∃ s, as_aggregate_spec v = Some s ∧ agg_type s ∉ registry.
Proof.
  unfold add_aggregate, mbind, M_bind, lift, raise, modify_self.
  intros Hrun [w ->]. revert Hrun.
  destruct v as [| | | | |d]; cbn; try discriminate.
  unfold dict_getitem, dict_get, dict_get_default.
  destruct (d !! consts.CONFIG_FIELD_ALIAS) as [a|]; [|discriminate].
  destruct (d !! consts.CONFIG_SOURCE_COLUMN) as [sc|]; [|discriminate].
  destruct (d !! consts.CONFIG_TARGET_COLUMN) as [tc|]; [|discriminate].
  destruct (d !! consts.CONFIG_TYPE) as [[| | |k| |]|]; cbn; try discriminate.
  case_bool_decide as Hk; cbn; [discriminate|]. intros _.
  by exists (Build_AggregateSpec a sc tc k).
Qed.

Lemma add_aggregate_missing_type d (st : St) :
  d !! consts.CONFIG_TYPE = None →
  ∃ e, add_aggregate registry (PDict d) st = (Raise e, st) ∧
       ¬ is_UnknownAggregationKind e ∧
       (is_Some (d !! consts.CONFIG_FIELD_ALIAS) →
        is_Some (d !! consts.CONFIG_SOURCE_COLUMN) →
        is_Some (d !! consts.CONFIG_TARGET_COLUMN) →
        e = TypeError "hasattr(): attribute name must be string").
Proof.
  intros Hk. unfold add_aggregate, mbind, M_bind, lift, raise. cbn.
  unfold dict_getitem, dict_get, dict_get_default. rewrite Hk.
  destruct (d !! consts.CONFIG_FIELD_ALIAS) as [a|];
    [|eexists; split_and!; [done|by intros [? [=]]|by intros [? [=]]]].
  destruct (d !! consts.CONFIG_SOURCE_COLUMN) as [sc|];
    [|eexists; split_and!; [done|by intros [? [=]]|by intros _ [? [=]]]].
  destruct (d !! consts.CONFIG_TARGET_COLUMN) as [tc|];
    [|eexists; split_and!; [done|by intros [? [=]]|by intros _ _ [? [=]]]].
  cbn. eexists; split_and!; [done|by intros [? [=]]|done].
Qed.

Lemma for_each_aggregates_no_unknown items (st st' : St) e :
  (∀ v s, v ∈ items → as_aggregate_spec v = Some s → agg_type s ∈ registry) →
  for_each items (add_aggregate registry) st = (Raise e, st') →
  ¬ is_UnknownAggregationKind e.
Proof.
  revert st. induction items as [|v items IH]; intros st Hitems; [done|].
  cbn. unfold mbind, M_bind.
  destruct (add_aggregate registry v st) as [[[]|e1] st1] eqn:Hv.
  - apply IH. intros w s Hw. apply Hitems. by right.
  - intros [= -> ->] Hunk.
    destruct (add_aggregate_Unknown_inv _ _ _ _ Hv Hunk) as (s & Hs & Hn).
    apply Hn, (Hitems v); [by left|done].
Qed.

(** C10: a config that lists an aggregate spec without the [type] key is
    never constructed.  The type of that spec resolves to [None], on which
    the membership check itself raises [TypeError]; the failure of
    [__init__] is not [UnknownAggregationKind] when no item listed before the
    spec names a kind outside the registry; and it is that [TypeError] when
    the validation type is supported, every earlier item binds and the spec
    has its three column keys. *)
Theorem missing_type_fails c sc tc v pre d post :
  declared_items c consts.CONFIG_AGGREGATES = pre ++ PDict d :: post →
  d !! consts.CONFIG_TYPE = None →
  py_get (PDict d) consts.CONFIG_TYPE = Ok PNone ∧
  AggregateField_hasattr registry PNone
    = Raise (TypeError "hasattr(): attribute name must be string") ∧
  ∃ e, init c sc tc v = Raise e ∧
    ((∀ w s, w ∈ pre → as_aggregate_spec w = Some s → agg_type s ∈ registry) →
     ¬ is_UnknownAggregationKind e) ∧
    (∀ vt specs,
       c !! consts.CONFIG_TYPE = Some vt → supported_type vt →
       Forall2 (λ w s, as_aggregate_spec w = Some s) pre specs →
       Forall (λ s, agg_type s ∈ registry) specs →
       is_Some (d !! consts.CONFIG_FIELD_ALIAS) →
       is_Some (d !! consts.CONFIG_SOURCE_COLUMN) →
       is_Some (d !! consts.CONFIG_TARGET_COLUMN) →
       e = TypeError "hasattr(): attribute name must be string").
Proof.
  intros Hdecl Hk.
  assert (Hitems : aggregate_items c = Ok (pre ++ PDict d :: post)).
  { apply py_iter_declared; [done|]. by destruct pre. }
  split_and!.
  - cbn. unfold dict_get, dict_get_default. by rewrite Hk.
  - done.
  - destruct (init_type_cases c sc tc v)
      as [[Hvt H]|[(vt & Hvt & Hn & H)|(vt & Hvt & Hsup)]].
    + exists (KeyError consts.CONFIG_TYPE). split_and!; [done|by intros _ [? [=]]|].
      intros vt specs Hvt'. congruence.
    + exists (UnsupportedValidationType vt). split_and!; [done|by intros _ [? [=]]|].
      intros vt' specs Hvt' Hsup. congruence.
    + destruct (for_each pre (add_aggregate registry)
                  ({| self := fresh c vt sc tc v; stdout := [] |} : St))
        as [[[]|e1] st1] eqn:Hpre.
      * destruct (add_aggregate_missing_type d st1 Hk) as (e & He & Hn & Hkeys).
        exists e. split_and!.
        -- eapply init_aggregates_Raise; [done..|].
           rewrite for_each_app, Hpre. cbn. unfold mbind, M_bind. by rewrite He.
        -- done.
        -- intros _ _ _ _ _ _. apply Hkeys.
      * exists e1. split_and!.
        -- eapply init_aggregates_Raise; [done..|]. by rewrite for_each_app, Hpre.
        -- intros Hreg. by eapply for_each_aggregates_no_unknown.
        -- intros vt' specs Hvt' _ Hspecs Hreg _ _ _.
           rewrite (for_each_aggregates_Ok _ _ _ Hspecs Hreg) in Hpre. discriminate.
Qed.

(** *** Compiling the two queries *)

Lemma get_source_query_run (st : St) s t :
  config (self st) !! "schema_name" = Some s →
  config (self st) !! "table_name" = Some t →
  get_source_query compile st =
    report "-- ** Source Query ** --"
      (call_compile_source compile
         {| data_client := source_client (self st);
            schema_name := s; table_name := t |} st).
Proof.
  intros Hs Ht.
  unfold get_source_query, mbind, M_bind, get_self, lift, dict_getitem.
  rewrite Hs, Ht. unfold call_compile_source, report.
  destruct (compile _ _) as [[q|e] qb]; [|done]. cbn.
  destruct (verbose (self st)); [|done]. cbn. by rewrite <- app_assoc.
Qed.

Lemma get_target_query_run (st : St) s t :
  config (self st) !! "schema_name" = Some s →
  config (self st) !! "table_name" = Some t →
  get_target_query compile st =
    report "-- ** Target Query ** --"
      (call_compile_target compile
         {| data_client := target_client (self st);
            schema_name :=
              dict_get_default (config (self st)) "target_schema_name" s;
            table_name :=
              dict_get_default (config (self st)) "target_table_name" t |} st).
Proof.
  intros Hs Ht.
  unfold get_target_query, mbind, M_bind, get_self, lift, dict_getitem.
  rewrite Hs, Ht. unfold call_compile_target, report.
  destruct (compile _ _) as [[q|e] qb]; [|done]. cbn.
  destruct (verbose (self st)); [|done]. cbn. by rewrite <- app_assoc.
Qed.

(** C6: on a builder whose config has [schema_name] and [table_name],
    [get_source_query] calls the compiler with the source client, schema and
    table, and [get_target_query] calls it with the target client and, for
    the schema and for the table, the value under [target_schema_name] /
    [target_table_name] when the config has that key and the source value
    when it has not. *)
Theorem query_locations (st : St) s t :
  config (self st) !! "schema_name" = Some s →
  config (self st) !! "table_name" = Some t →
  get_source_query compile st =
    report "-- ** Source Query ** --"
      (call_compile_source compile
         {| data_client := source_client (self st);
            schema_name := s; table_name := t |} st) ∧
  ∃ ts tt,
    get_target_query compile st =
      report "-- ** Target Query ** --"
        (call_compile_target compile
           {| data_client := target_client (self st);
              schema_name := ts; table_name := tt |} st) ∧
    (config (self st) !! "target_schema_name" = None → ts = s) ∧
    (∀ x, config (self st) !! "target_schema_name" = Some x → ts = x) ∧
    (config (self st) !! "target_table_name" = None → tt = t) ∧
    (∀ x, config (self st) !! "target_table_name" = Some x → tt = x).
Proof.
  intros Hs Ht. split; [by apply get_source_query_run|].
  eexists _, _. split; [by apply get_target_query_run|].
  unfold dict_get_default. split_and!.
  - by intros ->.
  - by intros x ->.
  - by intros ->.
  - by intros x ->.
Qed.

(** *** Compiling leaves the builder alone *)

Section ReadOnlyCompiler.
(** The compiler reads the specification it is handed and leaves it as it
    was. *)
Hypothesis compile_read_only : ∀ qb kw, snd (compile qb kw) = qb.

Lemma invoke_self q (st : St) : self (snd (invoke compile q st)) = self st.
Proof.
  destruct st as [b out].
  destruct q; cbn;
    [unfold get_source_query, call_compile_source
    |unfold get_target_query, call_compile_target];
    unfold mbind, M_bind, get_self, lift, dict_getitem; cbn;
    destruct (config b !! "schema_name"); cbn; try done;
    destruct (config b !! "table_name"); cbn; try done;
    match goal with
    | |- context [compile ?qb ?kw] =>
        specialize (compile_read_only qb kw);
        destruct (compile qb kw) as [[q|e] qb']
    end; cbn in *; subst;
    destruct b as [[] ? ? ? ? [] [] ? ?]; reflexivity.
Qed.

Lemma invoke_result q (st st' : St) :
  self st = self st' →
  fst (invoke compile q st) = fst (invoke compile q st').
Proof.
  destruct st as [b out], st' as [b' out']. cbn. intros <-.
  destruct q; cbn;
    [unfold get_source_query, call_compile_source
    |unfold get_target_query, call_compile_target];
    unfold mbind, M_bind, get_self, lift, dict_getitem; cbn;
    destruct (config b !! "schema_name"); cbn; try done;
    destruct (config b !! "table_name"); cbn; try done;
    match goal with
    | |- context [compile ?qb ?kw] =>
        specialize (compile_read_only qb kw);
        destruct (compile qb kw) as [[q|e] qb']
    end; cbn in *; subst;
    destruct b as [[] ? ? ? ? [] [] ? ?]; reflexivity.
Qed.

Lemma invoke_all_self calls (st : St) :
  self (invoke_all compile calls st) = self st.
Proof.
  revert st. induction calls as [|q calls IH]; intros st; [done|].
  cbn. by rewrite IH, invoke_self.
Qed.

Lemma invoke_all_read_only calls q (st : St) :
  self (invoke_all compile calls st) = self st ∧
  fst (invoke compile q (invoke_all compile calls st))
    = fst (invoke compile q st).
Proof.
  rewrite invoke_all_self. split; [done|].
  apply invoke_result, invoke_all_self.
Qed.
End ReadOnlyCompiler.

End Properties.

Section QueryFrame.
Context {Client Query : Type}.
Variable compile :
  QueryBuilder.t → @compile_kwargs Client → result Query * QueryBuilder.t.

Local Abbreviation St := (@state Client Query).

Lemma invoke_frame q (st : St) :
  verbose (self (snd (invoke compile q st))) = verbose (self st) ∧
  config (self (snd (invoke compile q st))) = config (self st) ∧
  validation_type (self (snd (invoke compile q st))) = validation_type (self st) ∧
  source_client (self (snd (invoke compile q st))) = source_client (self st) ∧
  target_client (self (snd (invoke compile q st))) = target_client (self st) ∧
  aggregate_aliases (self (snd (invoke compile q st))) = aggregate_aliases (self st) ∧
  group_aliases (self (snd (invoke compile q st))) = group_aliases (self st) ∧
  match q with
  | SourceQuery =>
      target_builder (self (snd (invoke compile q st))) = target_builder (self st)
  | TargetQuery =>
      source_builder (self (snd (invoke compile q st))) = source_builder (self st)
  end.
Proof.
  destruct st as [b out].
  destruct q; cbn;
    [unfold get_source_query, call_compile_source
    |unfold get_target_query, call_compile_target];
    unfold mbind, M_bind, get_self, lift, dict_getitem; cbn;
    destruct (config b !! "schema_name"); cbn; try done;
    destruct (config b !! "table_name"); cbn; try done;
    destruct (compile _ _) as [[r|e] qb]; cbn; try done;
    destruct (verbose b) eqn:Hv; cbn; rewrite ?Hv; done.
Qed.

Lemma invoke_all_frame calls (st : St) :
  verbose (self (invoke_all compile calls st)) = verbose (self st) ∧
  config (self (invoke_all compile calls st)) = config (self st) ∧
  validation_type (self (invoke_all compile calls st)) = validation_type (self st) ∧
  source_client (self (invoke_all compile calls st)) = source_client (self st) ∧
  target_client (self (invoke_all compile calls st)) = target_client (self st) ∧
  aggregate_aliases (self (invoke_all compile calls st)) = aggregate_aliases (self st) ∧
  group_aliases (self (invoke_all compile calls st)) = group_aliases (self st).
Proof.
  revert st. induction calls as [|q calls IH]; intros st; [done|].
  cbn. destruct (IH (snd (invoke compile q st))) as (-> & -> & -> & -> & -> & -> & ->).
  destruct (invoke_frame q st) as (? & ? & ? & ? & ? & ? & ? & _). done.
Qed.

(** C7: [get_source_query] and [get_target_query] may be invoked any number
    of times, in any order.  Whatever the compiler does, no invocation
    changes the alias registries, the config, the clients, the validation
    type or the verbose flag, and a query method leaves the specification of
    the other side alone.  With the compiler of the design, which leaves the
    specification it is handed as it was, no invocation changes any field of
    the builder, so every invocation finds the specifications as they were
    constructed and returns what it returns on the builder as constructed. *)
Theorem queries_idempotent f calls q (st : St) :
  (aggregate_aliases (self (invoke_all compile calls st)) = aggregate_aliases (self st) ∧
   group_aliases (self (invoke_all compile calls st)) = group_aliases (self st) ∧
   config (self (invoke_all compile calls st)) = config (self st) ∧
   verbose (self (invoke_all compile calls st)) = verbose (self st) ∧
   source_client (self (invoke_all compile calls st)) = source_client (self st) ∧
   target_client (self (invoke_all compile calls st)) = target_client (self st) ∧
   validation_type (self (invoke_all compile calls st)) = validation_type (self st) ∧
   target_builder (self (snd (get_source_query compile st))) = target_builder (self st) ∧
   source_builder (self (snd (get_target_query compile st))) = source_builder (self st)) ∧
  self (invoke_all (read_only_compiler f) calls st) = self st ∧
  source_builder (self (invoke_all (read_only_compiler f) calls st))
    = source_builder (self st) ∧
  target_builder (self (invoke_all (read_only_compiler f) calls st))
    = target_builder (self st) ∧
  fst (invoke (read_only_compiler f) q (invoke_all (read_only_compiler f) calls st))
    = fst (invoke (read_only_compiler f) q st).
Proof.
  split.
  - destruct (invoke_all_frame calls st) as (? & ? & ? & ? & ? & ? & ?).
    destruct (invoke_frame SourceQuery st) as (_ & _ & _ & _ & _ & _ & _ & Hs).
    destruct (invoke_frame TargetQuery st) as (_ & _ & _ & _ & _ & _ & _ & Ht).
    split_and!; done.
  - destruct (invoke_all_read_only (read_only_compiler f) (λ _ _, eq_refl)
                calls q st) as [Hself Hres].
    rewrite Hself. done.
Qed.

End QueryFrame.


(** ** The properties at work on the sample configs *)

Lemma descriptor_parity_witness :
  ∃ b,
    @__init__ string string sample_registry example_config "src" "tgt" false = Ok b ∧
    QueryBuilder.aggregate_fields (source_builder b)
      = [AggregateField.make "sum" (PStr "amount") (PStr "sum_amount")] ∧
    QueryBuilder.aggregate_fields (target_builder b)
      = [AggregateField.make "sum" (PStr "amt") (PStr "sum_amount")] ∧
    QueryBuilder.grouped_fields (source_builder b)
      = [GroupedField.make (PStr "region") (PStr "region") (PStr "string")] ∧
    QueryBuilder.grouped_fields (target_builder b)
      = [GroupedField.make (PStr "region_cd") (PStr "region") (PStr "string")].
Proof.
  assert (H : @__init__ string string sample_registry example_config
                "src" "tgt" false = Ok example_builder)
    by (vm_compute; reflexivity).
  destruct (descriptor_parity _ _ _ _ _ _ H)
    as (aggs & groups & Ha & Hg & H1 & H2 & H3 & H4 & _).
  assert (Ea : aggs = [sum_amount_spec "sum_amount"]).
  { eapply (Forall2_functional as_aggregate_spec); [exact Ha|].
    repeat constructor. }
  assert (Eg : groups = [region_spec "region"]).
  { eapply (Forall2_functional as_group_spec); [exact Hg|].
    repeat constructor. }
  subst aggs groups.
  exists example_builder. repeat split; assumption.
Defined.

Lemma alias_registries_witness :
  ∃ b,
    @__init__ string string sample_registry example_config "src" "tgt" false = Ok b ∧
    fst (@get_aggregate_aliases string string {| self := b; stdout := [] |})
      = Ok [PStr "sum_amount"] ∧
    fst (@get_group_aliases string string {| self := b; stdout := [] |})
      = Ok [PStr "region"].
Proof.
  assert (H : @__init__ string string sample_registry example_config
                "src" "tgt" false = Ok example_builder)
    by (vm_compute; reflexivity).
  destruct (alias_registries _ _ _ _ _ _ [] H)
    as (la & lg & H1 & H2 & Ha & Hg & _).
  assert (Ea : la = [PStr "sum_amount"]).
  { eapply (Forall2_functional item_alias); [exact Ha|]. repeat constructor. }
  assert (Eg : lg = [PStr "region"]).
  { eapply (Forall2_functional item_alias); [exact Hg|]. repeat constructor. }
  subst la lg.
  exists example_builder. repeat split; assumption.
Defined.

Lemma limit_parity_witness :
  ∃ b,
    @__init__ string string sample_registry override_config "src" "tgt" true = Ok b ∧
    QueryBuilder.limit (source_builder b) = PInt 500 ∧
    QueryBuilder.limit (target_builder b) = PInt 500.
Proof.
  assert (H : @__init__ string string sample_registry override_config
                "src" "tgt" true = Ok override_builder)
    by (vm_compute; reflexivity).
  destruct (limit_parity _ _ _ _ _ _ H) as (_ & _ & _ & H500).
  exists override_builder. split; [exact H|].
  apply H500. vm_compute. reflexivity.
Defined.

Lemma empty_config_witness :
  ∃ b,
    @__init__ string string sample_registry bare_config "src" "tgt" false = Ok b ∧
    QueryBuilder.aggregate_fields (source_builder b) = [] ∧
    QueryBuilder.grouped_fields (source_builder b) = [] ∧
    QueryBuilder.aggregate_fields (target_builder b) = [] ∧
    QueryBuilder.grouped_fields (target_builder b) = [] ∧
    aggregate_aliases b = [] ∧ group_aliases b = [].
Proof.
  apply (empty_config (Query:=string) sample_registry bare_config (PStr "Column")).
  - vm_compute. reflexivity.
  - left. reflexivity.
  - left. vm_compute. reflexivity.
  - left. vm_compute. reflexivity.
Defined.

Lemma sum_registered : "sum" ∈ sample_registry.
Proof. apply (bool_decide_eq_true_1 ("sum" ∈ sample_registry)). vm_compute. reflexivity. Qed.

Lemma median_unregistered : "median" ∉ sample_registry.
Proof. apply (bool_decide_eq_false_1 ("median" ∈ sample_registry)). vm_compute. reflexivity. Qed.

Lemma shared_alias_accepted_witness :
  ∃ b,
    @__init__ string string sample_registry shared_alias_config "src" "tgt" false = Ok b ∧
    aggregate_aliases b !! 0 = Some (PStr "x") ∧
    aggregate_aliases b !! 1 = Some (PStr "x") ∧
    group_aliases b !! 0 = Some (PStr "g") ∧
    group_aliases b !! 1 = Some (PStr "g") ∧
    QueryBuilder.aggregate_fields (source_builder b) !! 1
      = Some (AggregateField.make "sum" (PStr "amount") (PStr "x")) ∧
    QueryBuilder.aggregate_fields (target_builder b) !! 1
      = Some (AggregateField.make "sum" (PStr "amt") (PStr "x")).
Proof.
  destruct (shared_alias_accepted (Query:=string) sample_registry
              shared_alias_config (PStr "GroupedColumn") "src" "tgt" false
              [sum_amount_spec "x"; sum_amount_spec "x"]
              [region_spec "g"; region_spec "g"])
    as (b & Hb & Ha & Hg & _).
  - vm_compute. reflexivity.
  - right. reflexivity.
  - vm_compute. reflexivity.
  - repeat constructor; apply sum_registered.
  - vm_compute. reflexivity.
  - exists b. split; [exact Hb|].
    destruct (Ha 0 1 (sum_amount_spec "x") (sum_amount_spec "x"))
      as (Hs0 & Hs1 & Ht0 & Ht1 & Ha0 & Ha1); [lia|reflexivity..|].
    destruct (Hg 0 1 (region_spec "g") (region_spec "g"))
      as (_ & _ & _ & _ & Hg0 & Hg1); [lia|reflexivity..|].
    repeat split; assumption.
Defined.

Lemma unknown_aggregation_aborts_witness :
  @__init__ string string sample_registry unknown_kind_config "src" "tgt" false
    = Raise (UnknownAggregationKind (PStr "median")).
Proof.
  destruct (unknown_aggregation_aborts (Query:=string) sample_registry
              unknown_kind_config "src" "tgt" false
              [sum_amount_item "sum_amount"] median_item [sum_amount_item "late"]
              median_spec)
    as (_ & Hkind).
  - vm_compute. reflexivity.
  - vm_compute. reflexivity.
  - apply median_unregistered.
  - destruct (Hkind (PStr "Column") [sum_amount_spec "sum_amount"])
      as (bound & bad & rest & Heq & Hbound & Hbad & Hinit & _).
    + vm_compute. reflexivity.
    + left. reflexivity.
    + repeat constructor.
    + destruct bound as [|s1 bound].
      * injection Heq as <- _. destruct Hbad. apply sum_registered.
      * injection Heq as <- Heq. destruct bound as [|s2 bound].
        -- injection Heq as <- _. exact Hinit.
        -- injection Heq as _ Heq. by destruct bound.
Defined.

(** C2, as worded, fails where an earlier check raises first: this config
    lists an aggregate spec of a kind outside the registry, and construction
    raises [UnsupportedValidationType], not [UnknownAggregationKind]. *)
Lemma unknown_aggregation_preempted :
  median_item ∈ declared_items bogus_median_config consts.CONFIG_AGGREGATES ∧
  as_aggregate_spec median_item = Some median_spec ∧
  (agg_type median_spec ∉ sample_registry) ∧
  @__init__ string string sample_registry bogus_median_config "src" "tgt" false
    = Raise (UnsupportedValidationType (PStr "Bogus")) ∧
  ¬ is_UnknownAggregationKind (UnsupportedValidationType (PStr "Bogus")).
Proof.
  split_and!.
  - vm_compute. left.
  - vm_compute. reflexivity.
  - apply median_unregistered.
  - vm_compute. reflexivity.
  - intros [w Hw]. discriminate Hw.
Qed.

Lemma validation_type_checked_witness :
  @__init__ string string sample_registry bogus_config "src" "tgt" false
    = Raise (UnsupportedValidationType (PStr "Bogus")) ∧
  get_query_builder (PStr "GroupedColumn") = Ok QueryBuilder.build_count_validator.
Proof.
  split.
  - apply (validation_type_checked (Query:=string) sample_registry bogus_config
             (PStr "Bogus") "src" "tgt" false).
    + vm_compute. reflexivity.
    + intros [H | H]; discriminate H.
  - apply (validation_type_checked (Client:=string) (Query:=string) sample_registry
             example_config (PStr "GroupedColumn") "src" "tgt" false).
    + vm_compute. reflexivity.
    + right. reflexivity.
Defined.

Lemma query_locations_witness :
  fst (get_source_query echo_compile {| self := override_builder; stdout := [] |})
    = Ok {| data_client := "src"; schema_name := PStr "s"; table_name := PStr "t" |} ∧
  fst (get_target_query echo_compile {| self := override_builder; stdout := [] |})
    = Ok {| data_client := "tgt"; schema_name := PStr "ts"; table_name := PStr "t" |}.
Proof.
  destruct (query_locations echo_compile
              {| self := override_builder; stdout := [] |} (PStr "s") (PStr "t"))
    as (Hsrc & ts & tt & Htgt & _ & Hts & Htt & _).
  - vm_compute. reflexivity.
  - vm_compute. reflexivity.
  - rewrite Hsrc, Htgt.
    rewrite (Hts (PStr "ts")) by (vm_compute; reflexivity).
    rewrite Htt by (vm_compute; reflexivity).
    split; reflexivity.
Defined.

(** C6, as worded, fails on a config without [schema_name]: this config
    constructs and has both target overrides, and [get_target_query] raises
    [KeyError] on [schema_name] without calling the compiler. *)
Lemma target_overrides_need_source_location :
  @__init__ string (@compile_kwargs string) sample_registry overrides_only_config
    "src" "tgt" false
    = Ok (built overrides_only_config (PStr "Column") "src" "tgt" false [] []) ∧
  overrides_only_config !! "target_schema_name" = Some (PStr "ts") ∧
  overrides_only_config !! "target_table_name" = Some (PStr "tt") ∧
  get_target_query echo_compile
    {| self := built overrides_only_config (PStr "Column") "src" "tgt" false [] [];
       stdout := [] |}
    = (Raise (KeyError "schema_name"),
       {| self := built overrides_only_config (PStr "Column") "src" "tgt" false [] [];
          stdout := [] |}).
Proof. split_and!; vm_compute; reflexivity. Qed.

Lemma queries_idempotent_witness :
  self (invoke_all (read_only_compiler (λ qb kw, Ok (qb, kw)))
          [SourceQuery; TargetQuery; SourceQuery]
          {| self := override_builder; stdout := [] |}) = override_builder ∧
  fst (invoke (read_only_compiler (λ qb kw, Ok (qb, kw))) TargetQuery
         (invoke_all (read_only_compiler (λ qb kw, Ok (qb, kw)))
            [SourceQuery; TargetQuery; SourceQuery]
            {| self := override_builder; stdout := [] |}))
    = Ok (target_builder override_builder,
          {| data_client := "tgt"; schema_name := PStr "ts";
             table_name := PStr "t" |}).
Proof.
  destruct (queries_idempotent handed_compile (λ qb kw, Ok (qb, kw))
              [SourceQuery; TargetQuery; SourceQuery] TargetQuery
              {| self := override_builder; stdout := [] |})
    as (_ & Hself & _ & _ & Hres).
  split; [exact Hself|]. rewrite Hres. vm_compute. reflexivity.
Defined.

Lemma missing_type_fails_witness :
  @__init__ string string sample_registry missing_type_config "src" "tgt" false
    = Raise (TypeError "hasattr(): attribute name must be string") ∧
  ¬ is_UnknownAggregationKind
      (TypeError "hasattr(): attribute name must be string").
Proof.
  destruct (missing_type_fails (Query:=string) sample_registry missing_type_config
              "src" "tgt" false [sum_amount_item "sum_amount"] untyped_item [])
    as (_ & _ & e & He & Hn & Hkind).
  - vm_compute. reflexivity.
  - vm_compute. reflexivity.
  - assert (H : e = TypeError "hasattr(): attribute name must be string").
    { apply (Hkind (PStr "Column") [sum_amount_spec "sum_amount"]).
      - vm_compute. reflexivity.
      - left. reflexivity.
      - repeat constructor.
      - repeat constructor; apply sum_registered.
      - eexists. vm_compute. reflexivity.
      - eexists. vm_compute. reflexivity.
      - eexists. vm_compute. reflexivity. }
    subst e. split; [exact He|]. apply Hn.
    intros w s Hw%list_elem_of_singleton Hs. subst w.
    vm_compute in Hs. injection Hs as <-. apply sum_registered.
Defined.

(** C10, as worded, fails where an earlier item stops the loop: this config
    lists an aggregate spec without [type] after one of a kind outside the
    registry, and construction raises [UnknownAggregationKind]. *)
Lemma missing_type_preempted :
  PDict untyped_item ∈ declared_items median_first_config consts.CONFIG_AGGREGATES ∧
  untyped_item !! consts.CONFIG_TYPE = None ∧
  @__init__ string string sample_registry median_first_config "src" "tgt" false
    = Raise (UnknownAggregationKind (PStr "median")) ∧
  is_UnknownAggregationKind (UnknownAggregationKind (PStr "median")).
Proof.
  split_and!.
  - vm_compute. right. left.
  - vm_compute. reflexivity.
  - vm_compute. reflexivity.
  - by eexists.
Qed.

(** ** Further properties of the builder *)

Section FurtherProperties.
Context {Client Query : Type}.
Variable registry : gset string.
Variable compile :
  QueryBuilder.t → @compile_kwargs Client → result Query * QueryBuilder.t.

Local Abbreviation St := (@state Client Query).
Local Abbreviation VB := (@ValidationBuilder Client).
Local Abbreviation init := (@__init__ Client Query registry).

(** *** The sides stay in step *)

Lemma add_query_group_Raise_state v (st st' : St) e :
  add_query_group v st = (Raise e, st') → st' = st.
Proof.
  unfold add_query_group, mbind, M_bind, lift, modify_self.
  destruct v as [| | | | |d]; cbn; try congruence.
  unfold dict_getitem.
  destruct (d !! consts.CONFIG_FIELD_ALIAS) as [a|]; [|cbn; congruence].
  destruct (d !! consts.CONFIG_SOURCE_COLUMN) as [sc|]; [|cbn; congruence].
  destruct (d !! consts.CONFIG_TARGET_COLUMN) as [tc|]; cbn; congruence.
Qed.

Lemma in_step_bind_aggregate s (b : VB) :
  in_step b → in_step (bind_aggregate s b).
Proof.
  intros (H1 & H2 & H3 & H4 & H5 & H6 & H7). unfold in_step. cbn.
  rewrite !fmap_app, H1, H2, H5. done.
Qed.

Lemma in_step_bind_group g (b : VB) :
  in_step b → in_step (bind_group g b).
Proof.
  intros (H1 & H2 & H3 & H4 & H5 & H6 & H7). unfold in_step. cbn.
  rewrite !fmap_app, H3, H4, H6. done.
Qed.

Lemma in_step_built c vt (sc tc : Client) v aggs groups :
  in_step (built c vt sc tc v aggs groups).
Proof. unfold in_step. cbn. rewrite <- !list_fmap_compose. done. Qed.

Lemma in_step_add_aggregate v (st : St) :
  in_step (self st) → in_step (self (snd (add_aggregate registry v st))).
Proof.
  intros Hst. destruct (add_aggregate registry v st) as [[[]|e] st'] eqn:Hrun.
  - apply add_aggregate_Ok_inv in Hrun as (s & _ & _ & ->).
    by apply in_step_bind_aggregate.
  - by apply add_aggregate_Raise_state in Hrun as ->.
Qed.

Lemma in_step_add_query_group v (st : St) :
  in_step (self st) → in_step (self (snd (add_query_group v st))).
Proof.
  intros Hst. destruct (add_query_group v st) as [[[]|e] st'] eqn:Hrun.
  - apply add_query_group_Ok_inv in Hrun as (g & _ & ->).
    by apply in_step_bind_group.
  - by apply add_query_group_Raise_state in Hrun as ->.
Qed.

Lemma in_step_for_each {A} (body : A → @M Client Query unit) items (st : St) :
  (∀ x st, in_step (self st) → in_step (self (snd (body x st)))) →
  in_step (self st) → in_step (self (snd (for_each items body st))).
Proof.
  intros Hbody. revert st. induction items as [|x items IH]; intros st Hst; [done|].
  cbn. unfold mbind, M_bind. specialize (Hbody x st Hst).
  destruct (body x st) as [[[]|e] st1]; [by apply IH|done].
Qed.

Lemma in_step_mutate m (st : St) :
  in_step (self st) → in_step (self (snd (mutate registry m st))).
Proof.
  intros Hst. destruct m; cbn.
  - by apply in_step_add_aggregate.
  - by apply in_step_add_query_group.
  - rewrite add_config_aggregates_run. destruct (aggregate_items _); [|done].
    apply in_step_for_each; [|done]. apply in_step_add_aggregate.
  - rewrite add_config_query_groups_run. destruct (group_items _); [|done].
    apply in_step_for_each; [|done]. apply in_step_add_query_group.
  - destruct Hst as (H1 & H2 & H3 & H4 & H5 & H6 & H7). by unfold in_step.
Qed.

(** X1: whatever sequence of writing methods a caller invokes on a builder
    whose sides are in step, and whichever of them raise, the sides are in
    step afterwards: both sides' descriptors carry the registered aliases in
    order and agree on kinds, casts and limit. *)
Theorem in_step_preserved ms (st : St) :
  in_step (self st) → in_step (self (mutate_all registry ms st)).
Proof.
  revert st. induction ms as [|m ms IH]; intros st Hst; [done|].
  cbn. by apply IH, in_step_mutate.
Qed.

(** *** When construction succeeds, and with what *)

(** X2: construction succeeds exactly when the config has a supported
    validation type, every aggregate item is a spec of a registered kind and
    every group item is a spec; the object returned is then determined by the
    config: it stores the arguments, and each side holds the descriptors of
    the declared specs and the limit of the config. *)
Theorem construction_iff c sc tc v b :
  init c sc tc v = Ok b ↔
  ∃ vt aggs groups,
    c !! consts.CONFIG_TYPE = Some vt ∧ supported_type vt ∧
    declared_aggregates c = Some aggs ∧
    Forall (λ s, agg_type s ∈ registry) aggs ∧
    declared_groups c = Some groups ∧
    b = built c vt sc tc v aggs groups.
Proof.
  split; [apply init_Ok_inv|].
  intros (vt & aggs & groups & Hvt & Hsup & Ha & Hreg & Hg & ->).
  by apply init_Ok.
Qed.

Lemma fmap_eq_Forall {A B} (f g : A → B) (l : list A) :
  f <$> l = g <$> l ↔ Forall (λ x, f x = g x) l.
Proof.
  induction l as [|x l IH]; cbn.
  - split; [constructor|done].
  - rewrite Forall_cons, <- IH. split.
    + by intros [= -> ->].
    + by intros [-> ->].
Qed.

(** X3: the two specifications of a constructed builder are equal exactly
    when every aggregate spec and every group spec the config lists names
    the same column on both sides. *)
Theorem same_columns_same_specification c sc tc v b aggs groups :
  init c sc tc v = Ok b →
  Forall2 (λ w s, as_aggregate_spec w = Some s)
    (declared_items c consts.CONFIG_AGGREGATES) aggs →
  Forall2 (λ w g, as_group_spec w = Some g)
    (declared_items c consts.CONFIG_GROUPED_COLUMNS) groups →
  source_builder b = target_builder b ↔
  Forall (λ s, agg_source_column s = agg_target_column s) aggs ∧
  Forall (λ g, grp_source_column g = grp_target_column g) groups.
Proof.
  intros (vt & aggs' & groups' & _ & _ & Ha & _ & Hg & ->)%init_Ok_inv Ha' Hg'.
  apply declared_aggregates_items in Ha. apply declared_groups_items in Hg.
  rewrite (Forall2_functional _ _ _ _ Ha Ha'), (Forall2_functional _ _ _ _ Hg Hg').
  cbn. rewrite <- !fmap_eq_Forall. split.
  - intros [= Hagg Hgrp]. split.
    + apply fmap_eq_Forall. apply fmap_eq_Forall in Hagg.
      eapply Forall_impl; [exact Hagg|]. by intros s [= ->].
    + apply fmap_eq_Forall. apply fmap_eq_Forall in Hgrp.
      eapply Forall_impl; [exact Hgrp|]. by intros g [= ->].
  - intros [Hagg Hgrp]. f_equal.
    + apply fmap_eq_Forall. apply fmap_eq_Forall in Hagg.
      eapply Forall_impl; [exact Hagg|].
      intros s Hs. unfold source_aggregate, target_aggregate. by rewrite Hs.
    + apply fmap_eq_Forall. apply fmap_eq_Forall in Hgrp.
      eapply Forall_impl; [exact Hgrp|].
      intros g Hs. unfold source_group, target_group. by rewrite Hs.
Qed.

Lemma falsy_items v : truthy v = false → py_iter (py_or v (PList [])) = Ok [].
Proof. intros H. unfold py_or. by rewrite H. Qed.

(** X4: a falsy value under [aggregates] or [grouped_columns] ([None],
    [False], 0, an empty string, list or dict) counts as no items: with a
    supported validation type construction succeeds and binds nothing. *)
Theorem falsy_sequences_bind_nothing c vt sc tc v :
  c !! consts.CONFIG_TYPE = Some vt →
  supported_type vt →
  truthy (dict_get c consts.CONFIG_AGGREGATES) = false →
  truthy (dict_get c consts.CONFIG_GROUPED_COLUMNS) = false →
  init c sc tc v = Ok (built c vt sc tc v [] []).
Proof.
  intros Hvt Hsup Ha Hg. apply init_Ok; try done.
  - unfold declared_aggregates, aggregate_items. by rewrite (falsy_items _ Ha).
  - unfold declared_groups, group_items. by rewrite (falsy_items _ Hg).
Qed.

(** X5: what the compiler is handed in the end.  On a builder constructed
    from a config with [schema_name] and [table_name], [get_source_query]
    returns what the compiler returns for the source client, schema and table
    and the specification made of the source descriptors of the specs the
    config lists and the config's limit; [get_target_query] likewise with the
    target client, the target descriptors and the target location. *)
Theorem constructed_queries c sc tc v b s t out :
  init c sc tc v = Ok b →
  c !! "schema_name" = Some s →
  c !! "table_name" = Some t →
  ∃ aggs groups,
    Forall2 (λ w s, as_aggregate_spec w = Some s)
      (declared_items c consts.CONFIG_AGGREGATES) aggs ∧
    Forall2 (λ w g, as_group_spec w = Some g)
      (declared_items c consts.CONFIG_GROUPED_COLUMNS) groups ∧
    fst (get_source_query compile {| self := b; stdout := out |})
      = fst (compile
               (QueryBuilder.make (source_aggregate <$> aggs)
                  (source_group <$> groups)
                  (default PNone (c !! consts.CONFIG_LIMIT)))
               {| data_client := sc; schema_name := s; table_name := t |}) ∧
    fst (get_target_query compile {| self := b; stdout := out |})
      = fst (compile
               (QueryBuilder.make (target_aggregate <$> aggs)
                  (target_group <$> groups)
                  (default PNone (c !! consts.CONFIG_LIMIT)))
               {| data_client := tc;
                  schema_name := default s (c !! "target_schema_name");
                  table_name := default t (c !! "target_table_name") |}).
Proof.
  intros (vt & aggs & groups & _ & _ & Ha & _ & Hg & ->)%init_Ok_inv Hs Ht.
  apply declared_aggregates_items in Ha. apply declared_groups_items in Hg.
  exists aggs, groups. split_and!; try done.
  - rewrite (get_source_query_run compile _ s t) by done.
    unfold report, call_compile_source. cbn.
    unfold dict_get, dict_get_default.
    destruct (c !! consts.CONFIG_LIMIT); by destruct (compile _ _) as [[q|e] qb].
  - rewrite (get_target_query_run compile _ s t) by done.
    unfold report, call_compile_target. cbn.
    unfold dict_get, dict_get_default.
    destruct (c !! consts.CONFIG_LIMIT), (c !! "target_schema_name"),
      (c !! "target_table_name"); by destruct (compile _ _) as [[q|e] qb].
Qed.

(** X6: the binding step appends, it does not start over: run again on a
    constructed builder, [add_config_aggregates] succeeds and leaves each
    side with the aggregate descriptors twice, and the aggregate aliases
    twice; the grouped descriptors and the limit are as they were. *)
Theorem rebinding_appends c sc tc v b out :
  init c sc tc v = Ok b →
  ∃ aggs (st : St),
    declared_aggregates c = Some aggs ∧
    add_config_aggregates registry {| self := b; stdout := out |} = (Ok tt, st) ∧
    QueryBuilder.aggregate_fields (source_builder (self st))
      = (source_aggregate <$> aggs) ++ (source_aggregate <$> aggs) ∧
    QueryBuilder.aggregate_fields (target_builder (self st))
      = (target_aggregate <$> aggs) ++ (target_aggregate <$> aggs) ∧
    aggregate_aliases (self st) = (agg_alias <$> aggs) ++ (agg_alias <$> aggs) ∧
    QueryBuilder.grouped_fields (source_builder (self st))
      = QueryBuilder.grouped_fields (source_builder b) ∧
    QueryBuilder.grouped_fields (target_builder (self st))
      = QueryBuilder.grouped_fields (target_builder b) ∧
    QueryBuilder.limit (source_builder (self st)) = QueryBuilder.limit (source_builder b) ∧
    QueryBuilder.limit (target_builder (self st)) = QueryBuilder.limit (target_builder b) ∧
    group_aliases (self st) = group_aliases b.
Proof.
  intros (vt & aggs & groups & _ & _ & Ha & Hreg & _ & ->)%init_Ok_inv.
  pose proof Ha as (items & Hitems & Hspecs)%declared_aggregates_Some.
  exists aggs. eexists. split; [done|]. split.
  - rewrite add_config_aggregates_run. cbn. rewrite Hitems.
    by apply for_each_aggregates_Ok.
  - cbn. rewrite bind_aggregates_eq. cbn. done.
Qed.

(** *** Malformed items *)

Lemma add_aggregate_missing_key d k (st : St) :
  first_missing_key d = Some k →
  add_aggregate registry (PDict d) st = (Raise (KeyError k), st).
Proof.
  unfold first_missing_key, add_aggregate, mbind, M_bind, lift. cbn.
  unfold dict_getitem.
  destruct (d !! consts.CONFIG_FIELD_ALIAS); [|by intros [= <-]].
  destruct (d !! consts.CONFIG_SOURCE_COLUMN); [|by intros [= <-]].
  destruct (d !! consts.CONFIG_TARGET_COLUMN); [done|by intros [= <-]].
Qed.

Lemma add_query_group_missing_key d k (st : St) :
  first_missing_key d = Some k →
  add_query_group (PDict d) st = (Raise (KeyError k), st).
Proof.
  unfold first_missing_key, add_query_group, mbind, M_bind, lift. cbn.
  unfold dict_getitem.
  destruct (d !! consts.CONFIG_FIELD_ALIAS); [|by intros [= <-]].
  destruct (d !! consts.CONFIG_SOURCE_COLUMN); [|by intros [= <-]].
  destruct (d !! consts.CONFIG_TARGET_COLUMN); [done|by intros [= <-]].
Qed.

Lemma add_item_not_dict w (st : St) :
  is_dict w = false →
  ∃ msg, add_aggregate registry w st = (Raise (TypeError msg), st) ∧
         add_query_group w st = (Raise (TypeError msg), st).
Proof. destruct w; try discriminate; intros _; by eexists. Qed.

(** X7: an aggregate item that lacks one of its column keys stops
    construction with [KeyError] on the first key it lacks, in the order
    [field_alias], [source_column], [target_column]; whether its [type] is
    present or registered is not looked at.  (The validation type is
    supported and the items before it bind.) *)
Theorem aggregate_missing_key c vt sc tc v pre specs d post k :
  c !! consts.CONFIG_TYPE = Some vt →
  supported_type vt →
  aggregate_items c = Ok (pre ++ PDict d :: post) →
  Forall2 (λ w s, as_aggregate_spec w = Some s) pre specs →
  Forall (λ s, agg_type s ∈ registry) specs →
  first_missing_key d = Some k →
  init c sc tc v = Raise (KeyError k).
Proof.
  intros Hvt Hsup Hitems Hpre Hreg Hk.
  eapply init_aggregates_Raise; [done..|].
  rewrite for_each_app, (for_each_aggregates_Ok _ _ _ _ Hpre Hreg). cbn.
  unfold mbind, M_bind. by rewrite (add_aggregate_missing_key _ _ _ Hk).
Qed.

Lemma init_groups_Raise c vt sc tc v aggs items e (st' : St) :
  c !! consts.CONFIG_TYPE = Some vt →
  supported_type vt →
  declared_aggregates c = Some aggs →
  Forall (λ s, agg_type s ∈ registry) aggs →
  group_items c = Ok items →
  for_each items add_query_group
    ({| self := bind_aggregates aggs (fresh c vt sc tc v); stdout := [] |} : St)
    = (Raise e, st') →
  init c sc tc v = Raise e.
Proof.
  intros Hvt Hsup (ia & Hia & Ha)%declared_aggregates_Some Hreg Hitems Hrun.
  unfold __init__, dict_getitem. rewrite Hvt. cbn.
  rewrite (get_query_builder_Ok _ Hsup). cbn.
  unfold build_steps, mbind at 1 2, M_bind.
  rewrite add_config_aggregates_run. cbn. rewrite Hia.
  rewrite (for_each_aggregates_Ok _ _ _ _ Ha Hreg).
  rewrite add_config_query_groups_run. cbn.
  rewrite bind_aggregates_eq at 1. cbn. rewrite Hitems.
  unfold on_self, fresh in *. cbn in *. by rewrite Hrun.
Qed.

Lemma py_iter_listed c k :
  lists_or_omits c k →
  py_iter (py_or (dict_get c k) (PList [])) = Ok (declared_items c k).
Proof.
  unfold lists_or_omits, declared_items, dict_get, dict_get_default.
  intros [-> | [l ->]]; [done|]. by destruct l.
Qed.

Lemma add_query_group_keys d (st : St) :
  first_missing_key d = None →
  ∃ a sc tc,
    d !! consts.CONFIG_FIELD_ALIAS = Some a ∧
    d !! consts.CONFIG_SOURCE_COLUMN = Some sc ∧
    d !! consts.CONFIG_TARGET_COLUMN = Some tc ∧
    add_query_group (PDict d) st
      = (Ok tt,
         {| self :=
              bind_group
                (Build_GroupSpec a sc tc (default PNone (d !! consts.CONFIG_CAST)))
                (self st);
            stdout := stdout st |}).
Proof.
  unfold first_missing_key, add_query_group, mbind, M_bind, lift. cbn.
  unfold dict_getitem, dict_get, dict_get_default.
  destruct (d !! consts.CONFIG_FIELD_ALIAS) as [a|]; [|discriminate].
  destruct (d !! consts.CONFIG_SOURCE_COLUMN) as [sc|]; [|discriminate].
  destruct (d !! consts.CONFIG_TARGET_COLUMN) as [tc|]; [|discriminate].
  intros _. by exists a, sc, tc.
Qed.

(** X8: a group item the config lists after group items that bind.  If it
    lacks one of its column keys, construction stops with [KeyError] on the
    first key it lacks, after every aggregate has been bound.  If it has the
    three keys, [add_query_group] returns on it in every state, whether or
    not it has a [cast]: it appends to the source side the descriptor of its
    source column and to the target side that of its target column, both
    under its alias and its cast ([None] without the key), and registers the
    alias.  (The validation type is supported and the aggregates bind.) *)
Theorem group_missing_key c vt sc tc v aggs pre gs d post :
  c !! consts.CONFIG_TYPE = Some vt →
  supported_type vt →
  lists_or_omits c consts.CONFIG_AGGREGATES →
  Forall2 (λ w s, as_aggregate_spec w = Some s)
    (declared_items c consts.CONFIG_AGGREGATES) aggs →
  Forall (λ s, agg_type s ∈ registry) aggs →
  declared_items c consts.CONFIG_GROUPED_COLUMNS = pre ++ PDict d :: post →
  Forall2 (λ w g, as_group_spec w = Some g) pre gs →
  (∀ k, first_missing_key d = Some k → init c sc tc v = Raise (KeyError k)) ∧
  (first_missing_key d = None →
   ∀ st : St, ∃ a s t,
     d !! consts.CONFIG_FIELD_ALIAS = Some a ∧
     d !! consts.CONFIG_SOURCE_COLUMN = Some s ∧
     d !! consts.CONFIG_TARGET_COLUMN = Some t ∧
     add_query_group (PDict d) st
       = (Ok tt,
          {| self :=
               bind_group
                 (Build_GroupSpec a s t (default PNone (d !! consts.CONFIG_CAST)))
                 (self st);
             stdout := stdout st |})).
Proof.
  intros Hvt Hsup Hlist Ha Hreg Hdecl Hpre. split.
  - intros k Hk.
    assert (Hitems : group_items c = Ok (pre ++ PDict d :: post)).
    { apply py_iter_declared; [done|]. by destruct pre. }
    assert (Hagg : declared_aggregates c = Some aggs).
    { apply declared_aggregates_Some.
      exists (declared_items c consts.CONFIG_AGGREGATES). split; [|done].
      by apply py_iter_listed. }
    eapply init_groups_Raise; [done..|].
    rewrite for_each_app, (for_each_groups_Ok _ _ _ Hpre). cbn.
    unfold mbind, M_bind. by rewrite (add_query_group_missing_key _ _ _ Hk).
  - intros Hk st. by apply add_query_group_keys.
Qed.

(** X9: [aggregates] that is not a sequence of dicts stops construction with
    [TypeError]: a truthy value that cannot be iterated (a number, [True])
    when the loop starts, and an item that is not a dict (as the characters
    of a string are, or the keys of a dict) when it is reached.  (The
    validation type is supported and the items before it bind.) *)
Theorem aggregates_not_dicts c vt sc tc v :
  c !! consts.CONFIG_TYPE = Some vt →
  supported_type vt →
  (∀ e, aggregate_items c = Raise e →
        init c sc tc v = Raise e ∧ ∃ msg, e = TypeError msg) ∧
  (∀ pre specs w post,
     aggregate_items c = Ok (pre ++ w :: post) →
     Forall2 (λ w s, as_aggregate_spec w = Some s) pre specs →
     Forall (λ s, agg_type s ∈ registry) specs →
     is_dict w = false →
     ∃ msg, init c sc tc v = Raise (TypeError msg)).
Proof.
  intros Hvt Hsup. split.
  - intros e He. split.
    + unfold __init__, dict_getitem. rewrite Hvt. cbn.
      rewrite (get_query_builder_Ok _ Hsup). cbn.
      unfold build_steps, mbind at 1, M_bind.
      rewrite add_config_aggregates_run. cbn. by rewrite He.
    + revert He. unfold aggregate_items.
      destruct (py_or _ _); cbn; try discriminate; intros [= <-]; by eexists.
  - intros pre specs w post Hitems Hpre Hreg Hw.
    destruct (add_item_not_dict w
                (on_self (bind_aggregates specs)
                   ({| self := fresh c vt sc tc v; stdout := [] |} : St)) Hw)
      as (msg & Hrun & _).
    exists msg. eapply init_aggregates_Raise; [done..|].
    rewrite for_each_app, (for_each_aggregates_Ok _ _ _ _ Hpre Hreg). cbn.
    unfold mbind, M_bind. by rewrite Hrun.
Qed.

(** X10: binding one item is all or nothing.  When [add_aggregate] or
    [add_query_group] raises, the builder and the output are as before the
    call; when it returns, each side has one descriptor more and the alias
    registry one alias more, and nothing else has changed. *)
Theorem bind_all_or_nothing w (st : St) :
  (∀ e st', add_aggregate registry w st = (Raise e, st') → st' = st) ∧
  (∀ e st', add_query_group w st = (Raise e, st') → st' = st) ∧
  (∀ u st', add_aggregate registry w st = (Ok u, st') →
     ∃ s, as_aggregate_spec w = Some s ∧
          st' = {| self := bind_aggregate s (self st); stdout := stdout st |} ∧
          QueryBuilder.aggregate_fields (source_builder (self st'))
            = QueryBuilder.aggregate_fields (source_builder (self st))
                ++ [source_aggregate s] ∧
          QueryBuilder.aggregate_fields (target_builder (self st'))
            = QueryBuilder.aggregate_fields (target_builder (self st))
                ++ [target_aggregate s] ∧
          aggregate_aliases (self st') = aggregate_aliases (self st) ++ [agg_alias s]) ∧
  (∀ u st', add_query_group w st = (Ok u, st') →
     ∃ g, as_group_spec w = Some g ∧
          st' = {| self := bind_group g (self st); stdout := stdout st |} ∧
          QueryBuilder.grouped_fields (source_builder (self st'))
            = QueryBuilder.grouped_fields (source_builder (self st))
                ++ [source_group g] ∧
          QueryBuilder.grouped_fields (target_builder (self st'))
            = QueryBuilder.grouped_fields (target_builder (self st))
                ++ [target_group g] ∧
          group_aliases (self st') = group_aliases (self st) ++ [grp_alias g]).
Proof.
  split_and!.
  - intros e st'. apply add_aggregate_Raise_state.
  - intros e st'. apply add_query_group_Raise_state.
  - intros u st' (s & Hs & _ & ->)%add_aggregate_Ok_inv. by exists s.
  - intros u st' (g & Hg & ->)%add_query_group_Ok_inv. by exists g.
Qed.

(** *** The query methods *)

(** X11: without [schema_name], or with it but without [table_name], both
    query methods raise [KeyError] on that key before the compiler is called:
    the builder and the output are untouched.  This holds for
    [get_target_query] also when the config has [target_schema_name] and
    [target_table_name], since the source values are read as their
    defaults. *)
Theorem queries_need_location q (st : St) k :
  missing_location (config (self st)) = Some k →
  invoke compile q st = (Raise (KeyError k), st).
Proof.
  unfold missing_location. destruct q; cbn;
    [unfold get_source_query|unfold get_target_query];
    unfold mbind, M_bind, get_self, lift, dict_getitem;
    (destruct (config (self st) !! "schema_name"); [|by intros [= <-]]);
    (destruct (config (self st) !! "table_name"); [done|by intros [= <-]]).
Qed.

(** X12: what a query method prints.  A builder that is not verbose prints
    nothing; a verbose one prints, after the output so far, its header and
    then the query when the compiler returned one, and nothing when the
    method raised. *)
Theorem query_output q (st : St) :
  stdout (snd (invoke compile q st)) =
    stdout st ++
      (if verbose (self st)
       then match fst (invoke compile q st) with
            | Ok r => [PrintStr (header q); PrintQuery r]
            | Raise _ => []
            end
       else []).
Proof.
  destruct st as [b out].
  destruct q; cbn;
    [unfold get_source_query, call_compile_source
    |unfold get_target_query, call_compile_target];
    unfold mbind, M_bind, get_self, lift, dict_getitem; cbn;
    (destruct (config b !! "schema_name"); cbn;
       [|by destruct (verbose b); rewrite app_nil_r]);
    (destruct (config b !! "table_name"); cbn;
       [|by destruct (verbose b); rewrite app_nil_r]);
    destruct (compile _ _) as [[r|e] qb]; cbn;
    destruct (verbose b); cbn; by rewrite <- ?app_assoc, ?app_nil_r.
Qed.

End FurtherProperties.

(** ** The further properties at work on the sample configs *)

Lemma in_step_preserved_witness :
  in_step
    (self (mutate_all (Query:=string) sample_registry
             [AddAggregate (sum_amount_item "again"); AddAggregate median_item;
              AddQueryGroup (PStr "region"); AddConfigQueryGroups; AddQueryLimit]
             {| self := example_builder; stdout := [] |})).
Proof.
  apply in_step_preserved. apply in_step_built.
Defined.

Lemma construction_iff_witness :
  @__init__ string string sample_registry example_config "src" "tgt" false
    = Ok example_builder.
Proof.
  apply construction_iff.
  exists (PStr "GroupedColumn"), [sum_amount_spec "sum_amount"], [region_spec "region"].
  split_and!.
  - vm_compute. reflexivity.
  - right. reflexivity.
  - vm_compute. reflexivity.
  - repeat constructor; apply sum_registered.
  - vm_compute. reflexivity.
  - reflexivity.
Defined.

Lemma same_columns_same_specification_witness :
  (∃ b,
     @__init__ string string sample_registry same_columns_config "src" "tgt" false
       = Ok b ∧
     source_builder b = target_builder b) ∧
  (∃ b,
     @__init__ string string sample_registry example_config "src" "tgt" false
       = Ok b ∧
     source_builder b ≠ target_builder b).
Proof.
  split.
  - set (spec := Build_AggregateSpec (PStr "total") (PStr "amount") (PStr "amount") "sum").
    assert (H : @__init__ string string sample_registry same_columns_config
                  "src" "tgt" false
                = Ok (built same_columns_config (PStr "Column") "src" "tgt" false
                        [spec] []))
      by (vm_compute; reflexivity).
    eexists. split; [exact H|].
    apply (same_columns_same_specification sample_registry _ _ _ _ _ [spec] [] H).
    + repeat constructor.
    + repeat constructor.
    + split; repeat constructor.
  - assert (H : @__init__ string string sample_registry example_config
                  "src" "tgt" false = Ok example_builder)
      by (vm_compute; reflexivity).
    exists example_builder. split; [exact H|]. intros Heq.
    apply (same_columns_same_specification sample_registry _ _ _ _ _
             [sum_amount_spec "sum_amount"] [region_spec "region"] H) in Heq.
    + destruct Heq as [Hagg _]. apply Forall_cons in Hagg as [Hcol _].
      discriminate Hcol.
    + repeat constructor.
    + repeat constructor.
Defined.

Lemma falsy_sequences_bind_nothing_witness :
  @__init__ string string sample_registry falsy_config "src" "tgt" false
    = Ok (built falsy_config (PStr "Column") "src" "tgt" false [] []).
Proof.
  apply falsy_sequences_bind_nothing.
  - vm_compute. reflexivity.
  - left. reflexivity.
  - vm_compute. reflexivity.
  - vm_compute. reflexivity.
Defined.

Lemma constructed_queries_witness :
  ∃ b,
    @__init__ string (QueryBuilder.t * @compile_kwargs string) sample_registry
      override_config "src" "tgt" true = Ok b ∧
    fst (get_source_query handed_compile {| self := b; stdout := [] |})
      = Ok (QueryBuilder.make
              [AggregateField.make "sum" (PStr "amount") (PStr "sum_amount")]
              [GroupedField.make (PStr "region") (PStr "region") (PStr "string")]
              (PInt 500),
            {| data_client := "src"; schema_name := PStr "s";
               table_name := PStr "t" |}) ∧
    fst (get_target_query handed_compile {| self := b; stdout := [] |})
      = Ok (QueryBuilder.make
              [AggregateField.make "sum" (PStr "amt") (PStr "sum_amount")]
              [GroupedField.make (PStr "region_cd") (PStr "region") (PStr "string")]
              (PInt 500),
            {| data_client := "tgt"; schema_name := PStr "ts";
               table_name := PStr "t" |}).
Proof.
  assert (H : @__init__ string (QueryBuilder.t * @compile_kwargs string)
                sample_registry override_config "src" "tgt" true
              = Ok override_builder)
    by (vm_compute; reflexivity).
  destruct (constructed_queries sample_registry handed_compile override_config
              "src" "tgt" true override_builder (PStr "s") (PStr "t") [] H)
    as (aggs & groups & Ha & Hg & Hsrc & Htgt).
  - vm_compute. reflexivity.
  - vm_compute. reflexivity.
  - assert (Ea : aggs = [sum_amount_spec "sum_amount"]).
    { eapply (Forall2_functional as_aggregate_spec); [exact Ha|].
      repeat constructor. }
    assert (Eg : groups = [region_spec "region"]).
    { eapply (Forall2_functional as_group_spec); [exact Hg|].
      repeat constructor. }
    subst aggs groups. exists override_builder.
    split; [exact H|]. rewrite Hsrc, Htgt. split; vm_compute; reflexivity.
Defined.

Lemma rebinding_appends_witness :
  ∃ st,
    @add_config_aggregates string string sample_registry
      {| self := example_builder; stdout := [] |} = (Ok tt, st) ∧
    aggregate_aliases (self st) = [PStr "sum_amount"; PStr "sum_amount"].
Proof.
  assert (H : @__init__ string string sample_registry example_config
                "src" "tgt" false = Ok example_builder)
    by (vm_compute; reflexivity).
  destruct (rebinding_appends sample_registry _ _ _ _ _ [] H)
    as (aggs & st & Ha & Hrun & _ & _ & Hal & _).
  exists st. split; [exact Hrun|].
  vm_compute in Ha. injection Ha as <-. exact Hal.
Defined.

Lemma aggregate_missing_key_witness :
  @__init__ string string sample_registry no_target_config "src" "tgt" false
    = Raise (KeyError "target_column").
Proof.
  apply (aggregate_missing_key sample_registry no_target_config (PStr "Column")
           "src" "tgt" false [sum_amount_item "sum_amount"]
           [sum_amount_spec "sum_amount"] no_target_item []).
  - vm_compute. reflexivity.
  - left. reflexivity.
  - vm_compute. reflexivity.
  - repeat constructor.
  - repeat constructor; apply sum_registered.
  - vm_compute. reflexivity.
Defined.

Lemma group_missing_key_witness :
  @__init__ string string sample_registry no_alias_config "src" "tgt" false
    = Raise (KeyError "field_alias") ∧
  @add_query_group string string (PDict no_cast_item)
    {| self := example_builder; stdout := [] |}
    = (Ok tt,
       {| self :=
            bind_group (Build_GroupSpec (PStr "day") (PStr "day") (PStr "dt") PNone)
              example_builder;
          stdout := [] |}).
Proof.
  split.
  - apply (group_missing_key sample_registry no_alias_config (PStr "GroupedColumn")
             "src" "tgt" false [sum_amount_spec "sum_amount"]
             [region_item "region"] [region_spec "region"] no_alias_item []).
    + vm_compute. reflexivity.
    + right. reflexivity.
    + right. eexists. vm_compute. reflexivity.
    + repeat constructor.
    + repeat constructor; apply sum_registered.
    + vm_compute. reflexivity.
    + repeat constructor.
    + vm_compute. reflexivity.
  - destruct (group_missing_key (Query:=string) sample_registry no_cast_config
                (PStr "GroupedColumn") "src" "tgt" false []
                [region_item "region"] [region_spec "region"] no_cast_item [])
      as [_ Hbinds].
    + vm_compute. reflexivity.
    + right. reflexivity.
    + left. vm_compute. reflexivity.
    + constructor.
    + constructor.
    + vm_compute. reflexivity.
    + repeat constructor.
    + destruct (Hbinds eq_refl {| self := example_builder; stdout := [] |})
        as (a & s & t & Ha & Hs & Ht & Hrun).
      vm_compute in Ha, Hs, Ht.
      injection Ha as <-. injection Hs as <-. injection Ht as <-.
      exact Hrun.
Defined.

Lemma aggregates_not_dicts_witness :
  ∃ msg,
    @__init__ string string sample_registry string_aggregates_config "src" "tgt" false
      = Raise (TypeError msg).
Proof.
  destruct (aggregates_not_dicts (Query:=string) sample_registry
              string_aggregates_config (PStr "Column") "src" "tgt" false)
    as [_ Hitem].
  - vm_compute. reflexivity.
  - left. reflexivity.
  - apply (Hitem [] [] (PStr "c") (chars "ount")).
    + vm_compute. reflexivity.
    + constructor.
    + constructor.
    + reflexivity.
Defined.

Lemma bind_all_or_nothing_witness :
  snd (@add_aggregate string string sample_registry median_item
         {| self := example_builder; stdout := [] |})
    = {| self := example_builder; stdout := [] |}.
Proof.
  destruct (bind_all_or_nothing (Query:=string) sample_registry median_item
              {| self := example_builder; stdout := [] |})
    as (Hraise & _).
  destruct (add_aggregate sample_registry median_item
              {| self := example_builder; stdout := [] |})
    as [[u|e] st'] eqn:Hrun.
  - vm_compute in Hrun. discriminate Hrun.
  - exact (Hraise e st' eq_refl).
Defined.

Lemma queries_need_location_witness :
  invoke echo_compile TargetQuery
    {| self := built no_schema_config (PStr "Column") "src" "tgt" true [] [];
       stdout := [] |}
    = (Raise (KeyError "schema_name"),
       {| self := built no_schema_config (PStr "Column") "src" "tgt" true [] [];
          stdout := [] |}).
Proof.
  apply queries_need_location. vm_compute. reflexivity.
Defined.
